(** * Ravana: the ChromaDB document indexing and retrieval service

    A shallow embedding of [src/services/chroma_db.py]: the sliding-window
    chunker ([get_chunks_and_metadatas]), the batched insert
    ([add_documents]), the two ingestion entry points ([initialize_db],
    [add_search_results]), the similarity query ([query]) and the
    constructor ([__init__]).

    Python values that the code tests against [None] are options, dicts are
    [gmap]s, integers are [Z] (sizes and indices that Python keeps
    non-negative are [nat]).  Exceptions are an explicit error type; code
    that talks to the vector store or draws UUIDs runs in a small
    state-and-error monad whose state survives a raised exception, as the
    store's contents do in Python. *)

From Stdlib Require Import ZArith Lia Ascii String.
From stdpp Require Import base option list strings pretty gmap sorting.

Local Open Scope string_scope.
Local Open Scope list_scope.
Local Open Scope nat_scope.

(** ** Exceptions *)

Inductive Error :=
| KeyError (key : string)            (* d[key] on a dict without [key] *)
| TypeError (msg : string)
| ValueError (msg : string)
| IndexError (msg : string)
| AssertionError                     (* a failed [assert] *)
| Exception_ (msg : string)          (* [raise Exception(msg)] *)
| ValidationError (msg : string)     (* pydantic: a field of a schema is refused *)
| ExternalError (msg : string).      (* raised inside chromadb, tiktoken, openai, os *)

Inductive Result (A : Type) :=
| Ok (a : A)
| Raise (e : Error).
Arguments Ok {A} a.
Arguments Raise {A} e.

Definition rbind {A B} (r : Result A) (k : A → Result B) : Result B :=
  match r with
  | Ok a => k a
  | Raise e => Raise e
  end.

Fixpoint rmapM {A B} (f : A → Result B) (l : list A) : Result (list B) :=
  match l with
  | [] => Ok []
  | x :: l' => rbind (f x) (λ y, rbind (rmapM f l') (λ ys, Ok (y :: ys)))
  end.

(** [str(e)] for the exceptions above, as used by an f-string. *)
Definition str_of_error (e : Error) : string :=
  match e with
  | KeyError k => "'" +:+ k +:+ "'"
  | TypeError m | ValueError m | IndexError m | Exception_ m | ValidationError m
  | ExternalError m => m
  | AssertionError => EmptyString
  end.

(** ** Python list primitives used by the service *)

Section PyLists.
Context {A : Type}.

(** [l[i::step]] for [i >= 0].  The element count is CPython's
    [PySlice_AdjustIndices]: for a positive step the start is [i] and the
    stop is [len l]; for a negative step the start is clamped to
    [len l - 1] and the walk goes down to index 0. *)
Definition slice_from_step (l : list A) (i : nat) (step : Z) : Result (list A) :=
  let L := length l in
  if (step =? 0)%Z then Raise (ValueError "slice step cannot be zero")
  else if (0 <? step)%Z then
    let s := Z.to_nat step in
    let n := if i <? L then (L - i - 1) / s + 1 else 0 in
    Ok (omap (λ j, l !! (i + j * s)) (seq 0 n))
  else
    let k := Z.to_nat (- step) in
    let start := i `min` (L - 1) in
    let n := if L =? 0 then 0 else start / k + 1 in
    Ok (omap (λ j, l !! (start - j * k)) (seq 0 n)).

(** [itertools.zip_longest] applied to the lists [ls]: as many tuples as the longest list has
    elements, the shorter lists padded with [None]. *)
Definition zip_longest (ls : list (list A)) : list (list (option A)) :=
  map (λ j, map (λ l, l !! j) ls) (seq 0 (max_list (map length ls))).

(** [itertools.batched(l, n)], forced to a list; [n < 1] raises. *)
Fixpoint batched_aux (fuel n : nat) (l : list A) : list (list A) :=
  match fuel with
  | O => []
  | S fuel' =>
      match l with
      | [] => []
      | _ => take n l :: batched_aux fuel' n (drop n l)
      end
  end.

Definition batched (l : list A) (n : nat) : Result (list (list A)) :=
  if n =? 0 then Raise (ValueError "n must be at least one")
  else Ok (batched_aux (length l) n l).
End PyLists.

(** [zip(a, b, c)] of three lists: stops at the shortest. *)
Fixpoint zip3 {A B C} (a : list A) (b : list B) (c : list C) : list (A * B * C) :=
  match a, b, c with
  | x :: a', y :: b', z :: c' => (x, y, z) :: zip3 a' b' c'
  | _, _, _ => []
  end.

Fixpoint zip4 {A B C D} (a : list A) (b : list B) (c : list C) (d : list D)
  : list (A * B * C * D) :=
  match a, b, c, d with
  | x :: a', y :: b', z :: c', u :: d' => (x, y, z, u) :: zip4 a' b' c' d'
  | _, _, _, _ => []
  end.


(** ** Data model *)

Definition token := Z.

(** A JSON value as [simplejson] loads it, or a Python value handed on as
    metadata.  [VNone] is [None]/[null]; metadata mappings are string to
    string. *)
Inductive value :=
| VNone
| VStr (s : string)
| VInt (z : Z)
| VDict (m : gmap string string).

(** [DataConfig] and [APIConfig] of [configurator.py], with the fields the
    service reads.  [db_batch_size] is loaded but the service batches by the
    module constant [_BATCH_SIZE] instead. *)
Record DataConfig := {
  db_chunk_size : Z;
  db_chunk_overlap : Z;
  db_batch_size : Z;
  db_directory : string;
  db_name : string;
  embedding_model : string;
  embedding_model_tokenizer : string;
  distance_metric : string
}.

Record APIConfig := { openai_key : option string }.

Record Configurator := {
  data_files : list string;
  api_config : APIConfig;
  data_config : DataConfig
}.

(** [SearchResultItem] of [src.agents.types] (built in [search_tool.py] with
    [title] and [content] possibly [None]). *)
Record SearchResultItem := {
  sr_url : string;
  sr_title : option string;
  sr_content : option string;
  sr_query : string
}.

(** A [tiktoken] encoding: [encode] may reject a text (disallowed special
    tokens), [decode] of a token list is total. *)
Record Encoding := {
  enc_encode : string → Result (list token);
  enc_decode : list token → string
}.

(** One [collection.add(documents=..., metadatas=..., ids=...)] call. *)
Record Batch := {
  b_documents : list (option string);
  b_metadatas : list value;
  b_ids : list string
}.

(** The calls the service issues to its collection, in order. *)
Inductive StoreCall :=
| CallAdd (b : Batch)
| CallCount
| CallQuery (query_text : string) (n_results : Z) (where_ : option (gmap string string)).

(** ** External collaborators

    Everything the service imports and does not define: the tokenizer
    registry, the OpenAI embedding function, the persistent Chroma client
    and its collection, the file system under the persist directory, the
    JSON loader, [uuid.uuid4] and Python's [str] on a JSON value.  [Db] is
    the state behind the store (directories, collections, their chunks);
    an operation on it returns the new state also when it raises.
    [Distance] is the store's float distance: the service only relays
    it, so it is kept abstract with the store's order on it.  A query
    answers with four lists of rows: ids, documents ([None] where the
    store holds no text), metadatas and distances. *)
Record External := {
  Db : Type;
  EmbeddingFn : Type;
  Client : Type;
  Collection : Type;
  Distance : Type;
  dist_le : Distance → Distance → Prop;
  get_encoding : string → Result Encoding;
  OpenAIEmbeddingFunction : option string → string → Result EmbeddingFn;
  path_exists : string → Db → bool;
  rmtree : string → Db → Result unit * Db;
  makedirs : string → Db → Result unit * Db;
  PersistentClient : string → Db → Result Client * Db;
  get_or_create_collection :
    Client → string → EmbeddingFn → string → Db → Result Collection * Db;
  collection_add : Collection → Batch → Db → Result unit * Db;
  collection_count : Collection → Db → Result Z * Db;
  collection_query :
    Collection → string → Z → option (gmap string string) → Db →
    Result (list (list string) * list (list (option string)) * list (list value)
            * list (list Distance)) * Db;
  uuid4 : nat → string;
  load_json : string → Result (gmap string value);
  py_str : value → string
}.

(** ** The service monad: state [World], exceptions [Error] *)

Record World (X : External) := {
  db : Db X;                  (* the store's state *)
  calls : list StoreCall;     (* calls issued to the collection so far *)
  uuids_drawn : nat           (* how many UUIDs were drawn so far *)
}.
Arguments db {X} _.
Arguments calls {X} _.
Arguments uuids_drawn {X} _.

Definition M (X : External) (A : Type) : Type := World X → Result A * World X.

Definition ret {X A} (a : A) : M X A := λ w, (Ok a, w).
Definition raise {X A} (e : Error) : M X A := λ w, (Raise e, w).
Definition bind {X A B} (m : M X A) (k : A → M X B) : M X B :=
  λ w, match m w with
       | (Ok a, w') => k a w'
       | (Raise e, w') => (Raise e, w')
       end.
Definition lift {X A} (r : Result A) : M X A := λ w, (r, w).

Declare Scope svc_scope.
Delimit Scope svc_scope with svc.
Notation "x <- m ;; k" := (bind m (λ x, k))
  (at level 100, m at next level, right associativity) : svc_scope.
Notation "m ;;; k" := (bind m (λ _, k))
  (at level 100, right associativity) : svc_scope.
Notation "x <-? r ;; k" := (rbind r (λ x, k))
  (at level 100, r at next level, right associativity) : svc_scope.
Local Open Scope svc_scope.

(** [for x in l: body x] *)
Fixpoint for_each {X A} (l : list A) (body : A → M X unit) : M X unit :=
  match l with
  | [] => ret ()
  | x :: l' => body x ;;; for_each l' body
  end.

(** [d[key]] on a dict. *)
Definition getitem {V} (d : gmap string V) (key : string) : Result V :=
  match d !! key with
  | Some v => Ok v
  | None => Raise (KeyError key)
  end.

(** ** [class ChromaDBService] *)

Definition _BATCH_SIZE : nat := 200.

(** [Chunk] and [QueryResult] of [types/query_types.py]: pydantic schemas,
    [Chunk] with [text: str], [metadata: Dict[str, str]],
    [distance: float] and [id: str]. *)
Record Chunk (X : External) := {
  text : string;
  metadata : gmap string string;
  distance : Distance X;
  id : string
}.
Arguments text {X} _.
Arguments metadata {X} _.
Arguments distance {X} _.
Arguments id {X} _.

Record QueryResult (X : External) := { results : list (Chunk X) }.
Arguments results {X} _.

Record ChromaDBService (X : External) := {
  config : Configurator;
  embedding_function : EmbeddingFn X;
  client : Client X;
  collection : Collection X
}.
Arguments config {X} _.
Arguments embedding_function {X} _.
Arguments client {X} _.
Arguments collection {X} _.

Section Service.
Context {X : External}.
Local Abbreviation M := (M X).
Local Abbreviation World := (World X).
Local Abbreviation ChromaDBService := (ChromaDBService X).

(** *** Calls that leave the process *)

Definition on_db {A} (f : Db X → Result A * Db X) : M A :=
  λ w, let '(r, d) := f (db w) in
       (r, {| db := d; calls := calls w; uuids_drawn := uuids_drawn w |}).

Definition log_call (c : StoreCall) : M unit :=
  λ w, (Ok (), {| db := db w; calls := calls w ++ [c];
                  uuids_drawn := uuids_drawn w |}).

(** [str(uuid.uuid4())] *)
Definition draw_uuid : M string :=
  λ w, (Ok (uuid4 X (uuids_drawn w)),
        {| db := db w; calls := calls w; uuids_drawn := S (uuids_drawn w) |}).

Fixpoint draw_uuids {A} (l : list A) : M (list string) :=
  match l with
  | [] => ret []
  | _ :: l' => u <- draw_uuid ;; us <- draw_uuids l' ;; ret (u :: us)
  end.

(** *** [__init__] *)

Definition __init__ (config : Configurator) (recreate_collection : bool)
  : M ChromaDBService :=
  let dc := data_config config in
  ef <- lift (OpenAIEmbeddingFunction X (openai_key (api_config config))
                (embedding_model dc)) ;;
  ex <- on_db (λ d, (Ok (path_exists X (db_directory dc) d), d)) ;;
  (if recreate_collection && ex
   then on_db (rmtree X (db_directory dc)) ;;;
        on_db (makedirs X (db_directory dc))
   else ret ()) ;;;
  cl <- on_db (PersistentClient X (db_directory dc)) ;;
  co <- on_db (get_or_create_collection X cl (db_name dc) ef (distance_metric dc)) ;;
  ret {| config := config; embedding_function := ef;
         client := cl; collection := co |}.

(** The three lambdas that [__init__] stores on the instance.  Each looks
    the encoding up when it is called. *)
Definition encode (self : ChromaDBService) (x : value) : Result (list token) :=
  enc <-? get_encoding X (embedding_model_tokenizer (data_config (config self))) ;;
  match x with
  | VStr s => enc_encode enc s
  | _ => Raise (TypeError "expected string or buffer")
  end.

(** A tuple that still holds a [None] is not a token sequence: the
    tokenizer rejects it. *)
Fixpoint tokens_of (x : list (option token)) : option (list token) :=
  match x with
  | [] => Some []
  | Some t :: x' => option_map (cons t) (tokens_of x')
  | None :: _ => None
  end.

Definition decode (self : ChromaDBService) (x : list (option token)) : Result string :=
  enc <-? get_encoding X (embedding_model_tokenizer (data_config (config self))) ;;
  match tokens_of x with
  | Some ts => Ok (enc_decode enc ts)
  | None => Raise (TypeError "'NoneType' object cannot be interpreted as an integer")
  end.

Definition get_tokens (self : ChromaDBService) (x : value) : Result nat :=
  ts <-? encode self x ;; Ok (length ts).

(** *** [get_chunks_and_metadatas] *)

Definition is_not_None {A} (i : option A) : bool :=
  match i with Some _ => true | None => false end.

(** The inner generator [_yield_chunks], forced to a list.  A tuple of
    [zip_longest] has [chunk_size] fields, so [x[-1]] exists whenever a
    tuple is produced. *)
Definition _yield_chunks (document : list token) (chunk_size overlap : Z)
  : Result (list (list (option token))) :=
  slices <-? rmapM (λ i, slice_from_step document i (chunk_size - overlap))
               (seq 0 (Z.to_nat chunk_size)) ;;
  Ok (map (λ x, match last x with
                | Some None => List.filter is_not_None x
                | _ => x
                end)
        (zip_longest slices)).

Definition get_chunks_and_metadatas (self : ChromaDBService)
    (file_json : gmap string value) : Result (list string * list value) :=
  doc <-? getitem file_json "document" ;;
  document <-? encode self doc ;;
  let chunk_size := db_chunk_size (data_config (config self)) in
  let overlap := db_chunk_overlap (data_config (config self)) in
  windows <-? _yield_chunks document chunk_size overlap ;;
  chunks <-? rmapM (decode self) windows ;;
  md <-? getitem file_json "metadata" ;;
  Ok (chunks, replicate (length chunks) md).

(** *** [add_documents] *)

Definition is_None {A} (d : option A) : bool :=
  match d with None => true | Some _ => false end.

Definition collection_add_call (self : ChromaDBService) (b : Batch) : M unit :=
  log_call (CallAdd b) ;;; on_db (collection_add X (collection self) b).

(** The body of [add_documents] with the batch size as a parameter. *)
Definition add_documents_batched (batch_size : nat) (self : ChromaDBService)
    (documents : list (option string)) (metadatas : option (list value))
    (ids : option (list string)) : M (list string) :=
  ids <- match ids with
         | None => draw_uuids documents
         | Some l => ret l
         end ;;
  let metadatas := match metadatas with
                   | None => replicate (length documents) (VDict ∅)
                   | Some l => l
                   end in
  (if existsb is_None documents then raise AssertionError else ret ()) ;;;
  _docs <- lift (batched documents batch_size) ;;
  _mds <- lift (batched metadatas batch_size) ;;
  _ids <- lift (batched ids batch_size) ;;
  for_each (zip3 _docs _mds _ids)
    (λ '(_d, _m, _i),
       collection_add_call self
         {| b_documents := _d; b_metadatas := _m; b_ids := _i |}) ;;;
  ret ids.

Definition add_documents := add_documents_batched _BATCH_SIZE.

(** *** [initialize_db] *)

(** The message of the exception that [initialize_db] raises for a record
    on which chunking raised [e]. *)
Definition ingest_message (md : value) (e : Error) : string :=
  "error reading file with metadata " +:+ py_str X md +:+
  ", details follow ... " +:+ str_of_error e.

(** The loop over [data]: chunk each record, wrap whatever chunking raises.
    The handler itself evaluates [d['metadata']], which raises [KeyError]
    on a record without that key. *)
Fixpoint chunk_records (self : ChromaDBService) (data : list (gmap string value))
  : Result (list string * list value) :=
  match data with
  | [] => Ok ([], [])
  | d :: data' =>
      match get_chunks_and_metadatas self d with
      | Raise e =>
          md <-? getitem d "metadata" ;;
          Raise (Exception_ (ingest_message md e))
      | Ok (_ch, _md) =>
          rest <-? chunk_records self data' ;;
          Ok (_ch ++ rest.1, _md ++ rest.2)
      end
  end.

Definition initialize_db (self : ChromaDBService) : M (list string) :=
  data <- lift (rmapM (load_json X) (data_files (config self))) ;;
  cm <- lift (chunk_records self data) ;;
  add_documents self (Some <$> cm.1) (Some cm.2) None.

(** *** [add_search_results] *)

(** [sr.title or ''] *)
Definition title_or_empty (t : option string) : string :=
  match t with
  | Some s => s
  | None => EmptyString
  end.

Definition search_result_doc (sr : SearchResultItem) : gmap string value :=
  {[ "document" := match sr_content sr with
                   | Some c => VStr c
                   | None => VNone
                   end;
     "metadata" := VDict {[ "title" := title_or_empty (sr_title sr);
                            "url" := sr_url sr ]} ]}.

(** The loop of [add_search_results]: no handler around the chunker. *)
Fixpoint chunk_docs (self : ChromaDBService) (docs : list (gmap string value))
  : Result (list string * list value) :=
  match docs with
  | [] => Ok ([], [])
  | d :: docs' =>
      cm <-? get_chunks_and_metadatas self d ;;
      rest <-? chunk_docs self docs' ;;
      Ok (cm.1 ++ rest.1, cm.2 ++ rest.2)
  end.

Definition add_search_results (self : ChromaDBService)
    (search_results : list SearchResultItem) : M (list string) :=
  let non_null := List.filter (λ sr, is_not_None (sr_content sr)) search_results in
  let docs := map search_result_doc non_null in
  (if 0 <? length docs then ret () else raise AssertionError) ;;;
  cm <- lift (chunk_docs self docs) ;;
  add_documents self (Some <$> cm.1) (Some cm.2) None.

(** *** [get_count] and [query] *)

Definition get_count (self : ChromaDBService) : M Z :=
  log_call CallCount ;;; on_db (collection_count X (collection self)).

(** [xs[0]] *)
Definition first_row {A} (xs : list (list A)) : Result (list A) :=
  match xs with
  | x :: _ => Ok x
  | [] => Raise (IndexError "list index out of range")
  end.

(** [Chunk(text=doc, metadata=md, distance=dist, id=id)].  The schema
    validates its fields: a [None] document is no [str] and a metadata that
    is not a mapping of strings to strings is no [Dict[str, str]]; either
    raises pydantic's [ValidationError].  Ids and distances are the
    store's strings and floats. *)
Definition new_Chunk (text : option string) (metadata : value)
    (distance : Distance X) (id : string) : Result (Chunk X) :=
  match text, metadata with
  | Some t, VDict m =>
      Ok {| text := t; metadata := m; distance := distance; id := id |}
  | _, _ => Raise (ValidationError "validation error for Chunk")
  end.

Definition query (self : ChromaDBService) (query_text : string) (n_results : Z)
    (where_ : option (gmap string string)) (ids : option (list string))
  : M (QueryResult X) :=
  count <- get_count self ;;
  let n := Z.max 1 (Z.min n_results count) in
  log_call (CallQuery query_text n where_) ;;;
  results <- on_db (collection_query X (collection self) query_text n where_) ;;
  let '(r_ids, r_documents, r_metadatas, r_distances) := results in
  lift (ids0 <-? first_row r_ids ;;
        docs0 <-? first_row r_documents ;;
        mds0 <-? first_row r_metadatas ;;
        dists0 <-? first_row r_distances ;;
        chunks <-? rmapM (λ '(id, doc, md, dist), new_Chunk doc md dist id)
                     (zip4 ids0 docs0 mds0 dists0) ;;
        Ok {| results := chunks |}).

End Service.

(** ** An in-memory instance of the collaborators

    Used to run the service on concrete inputs.  The store keeps its chunks
    in a list; [accepts] says which [add] calls it lets through (a call it
    refuses raises, as a backend failure does); the tokenizer registry and
    the data files are parameters. *)

Definition char_encoding : Encoding :=
  {| enc_encode := λ s, Ok ((λ c, Z.of_nat (Ascii.nat_of_ascii c)) <$> list_ascii_of_string s);
     enc_decode := λ ts, string_of_list_ascii ((λ t, ascii_of_nat (Z.to_nat t)) <$> ts) |}.

Definition known_encodings (name : string) : Result Encoding :=
  if String.eqb name "cl100k_base" then Ok char_encoding
  else Raise (ValueError "Unknown encoding").

Definition mem_entries (b : Batch) : list (string * option string * value) :=
  zip3 (b_ids b) (b_documents b) (b_metadatas b).

Definition mem_str (v : value) : string :=
  match v with
  | VNone => "None"
  | VStr s => s
  | VInt z => pretty z
  | VDict m =>
      "{" +:+ String.concat ", "
                ((λ kv, "'" +:+ kv.1 +:+ "': '" +:+ kv.2 +:+ "'") <$> map_to_list m)
      +:+ "}"
  end.

Definition mem_env (encodings : string → Result Encoding) (accepts : Batch → bool)
    (files : gmap string (gmap string value)) : External :=
  {| Db := list (string * option string * value);
     EmbeddingFn := unit;
     Client := unit;
     Collection := unit;
     Distance := nat;
     dist_le := le;
     get_encoding := encodings;
     OpenAIEmbeddingFunction := λ _ _, Ok ();
     path_exists := λ _ _, true;
     rmtree := λ _ _, (Ok (), []);
     makedirs := λ _ d, (Ok (), d);
     PersistentClient := λ _ d, (Ok (), d);
     get_or_create_collection := λ _ _ _ _ d, (Ok (), d);
     collection_add := λ _ b d,
       if accepts b then (Ok (), d ++ mem_entries b)
       else (Raise (ExternalError "backend failure"), d);
     collection_count := λ _ d, (Ok (Z.of_nat (length d)), d);
     collection_query := λ _ _ n _ d,
       let hits := take (Z.to_nat n) d in
       (Ok ([(λ e, e.1.1) <$> hits],
            [(λ e, e.1.2) <$> hits],
            [(λ e, e.2) <$> hits],
            [seq 0 (length hits)]), d);
     uuid4 := λ n, "uuid-" +:+ String (Ascii.ascii_of_nat (65 + n)) EmptyString;
     load_json := λ fn, match files !! fn with
                        | Some j => Ok j
                        | None => Raise (ExternalError "No such file or directory")
                        end;
     py_str := mem_str |}.

Definition mem_world (X : External) (d : Db X) : World X :=
  {| db := d; calls := []; uuids_drawn := 0 |}.

Definition test_config (chunk_size overlap : Z) (tokenizer : string)
    (files : list string) : Configurator :=
  {| data_files := files;
     api_config := {| openai_key := Some "sk-test" |};
     data_config :=
       {| db_chunk_size := chunk_size; db_chunk_overlap := overlap;
          db_batch_size := 200; db_directory := "data/chroma"; db_name := "ravana";
          embedding_model := "text-embedding-3-small";
          embedding_model_tokenizer := tokenizer; distance_metric := "cosine" |} |}.

Definition test_service (X : External) (ef : EmbeddingFn X) (cl : Client X)
    (co : Collection X) (chunk_size overlap : Z) : ChromaDBService X :=
  {| config := test_config chunk_size overlap "cl100k_base" [];
     embedding_function := ef; client := cl; collection := co |}.

Definition accept_all (b : Batch) : bool := true.
Definition refuse_all (b : Batch) : bool := false.

Definition std_env : External := mem_env known_encodings accept_all ∅.
Definition std_service (chunk_size overlap : Z) : ChromaDBService std_env :=
  test_service std_env () () () chunk_size overlap.

Definition record_of (document : string) (md : value) : gmap string value :=
  {[ "document" := VStr document; "metadata" := md ]}.

(** ** Windows of a token sequence

    The closed forms that the chunker is proved to compute. *)

Definition pos_slice {A} (l : list A) (i s : nat) : list A :=
  omap (λ j, l !! (i + j * s))
    (seq 0 (if i <? length l then (length l - i - 1) / s + 1 else 0)).

(** The number of windows: [ceil(L / s)] in natural numbers. *)
Definition window_count (L s : nat) : nat := (L + s - 1) / s.

(** Window [j] of width [c] at stride [s] is the slice
    [document[j*s : j*s + c]], cut off at the end of the document. *)
Definition sliding_windows {A} (document : list A) (c s : nat) : list (list A) :=
  (λ j, take c (drop (j * s) document)) <$> seq 0 (window_count (length document) s).

(** [ceil(a / b)] for [b > 0], over the integers. *)
Definition ceil_div (a b : Z) : Z := (a + b - 1) / b.

Definition abcdefgh : list token := [97; 98; 99; 100; 101; 102; 103; 104]%Z.

(** ** The run of [add_documents], step by step *)

Definition batch_of (t : list (option string) * list value * list string) : Batch :=
  {| b_documents := t.1.1; b_metadatas := t.1.2; b_ids := t.2 |}.

Definition after_draws {X} (w : World X) (n : nat) : World X :=
  {| db := db w; calls := calls w; uuids_drawn := uuids_drawn w + n |}.

(** Batch [j] of three parallel lists. *)
Definition nth_batch (B : nat) (documents : list (option string))
    (metadatas : list value) (ids : list string) (j : nat) : Batch :=
  {| b_documents := take B (drop (j * B) documents);
     b_metadatas := take B (drop (j * B) metadatas);
     b_ids := take B (drop (j * B) ids) |}.

Section AddDocumentsSteps.
Context {X : External}.
Implicit Types w : World X.

(** The ids and metadatas that [add_documents] works with after its two
    defaulting steps. *)
Definition resolved_ids (documents : list (option string)) (ids : option (list string))
    w : list string :=
  match ids with
  | Some l => l
  | None => uuid4 X <$> seq (uuids_drawn w) (length documents)
  end.

Definition resolved_metadatas (documents : list (option string))
    (metadatas : option (list value)) : list value :=
  match metadatas with
  | Some l => l
  | None => replicate (length documents) (VDict ∅)
  end.

Definition after_ids (documents : list (option string)) (ids : option (list string))
    w : World X :=
  match ids with
  | Some _ => w
  | None => after_draws w (length documents)
  end.

(** The batches that the loop of [add_documents] iterates over. *)
Definition submitted_batches (B : nat) (documents : list (option string))
    (metadatas : list value) (ids : list string) : list Batch :=
  batch_of <$> zip3 (sliding_windows documents B B) (sliding_windows metadatas B B)
                 (sliding_windows ids B B).
End AddDocumentsSteps.

(** Submitting batches one after the other to the store, stopping at the
    first [add] that raises. *)
Fixpoint submit_all {X : External} (co : Collection X) (bs : list Batch) (d : Db X)
  : Result unit * Db X :=
  match bs with
  | [] => (Ok (), d)
  | b :: bs' =>
      match collection_add X co b d with
      | (Ok _, d') => submit_all co bs' d'
      | (Raise e, d') => (Raise e, d')
      end
  end.

Definition failing_env : External := mem_env known_encodings refuse_all ∅.

(** A store that checks what it is given: it refuses an [add] whose three
    lists differ in length. *)
Definition same_lengths (b : Batch) : bool :=
  (length (b_documents b) =? length (b_metadatas b))
  && (length (b_metadatas b) =? length (b_ids b)).
Definition checking_env : External := mem_env known_encodings same_lengths ∅.

(** Two data files: one record without [document], one without
    [metadata]. *)
Definition bad_files : gmap string (gmap string value) :=
  {[ "no_document.json" := {[ "metadata" := VStr "notes.txt" ]};
     "no_metadata.json" := {[ "document" := VStr "abc" ]} ]}.

Definition files_env : External := mem_env known_encodings accept_all bad_files.

Definition files_service (files : list string) : ChromaDBService files_env :=
  Build_ChromaDBService files_env (test_config 4 1 "cl100k_base" files) () () ().

Definition sr_item (content : option string) : SearchResultItem :=
  {| sr_url := "https://example.org"; sr_title := None; sr_content := content;
     sr_query := "q" |}.

(** A list of distances in non-decreasing order of [le]. *)
Definition non_decreasing {D} (le : D → D → Prop) (l : list D) : Prop :=
  ∀ i x y, l !! i = Some x → l !! S i = Some y → le x y.

(** A row of a query answer whose document is a text and whose metadata is
    a mapping of strings to strings. *)
Definition valid_row {X : External}
    (row : string * option string * value * Distance X) : bool :=
  match row with
  | (_, Some _, VDict _, _) => true
  | _ => false
  end.

(** Three stored chunks with their metadata. *)
Definition three_chunks : list (string * option string * value) :=
  [("i1", Some "a", VDict {[ "source" := "notes.txt" ]});
   ("i2", Some "b", VDict {[ "source" := "notes.txt" ]});
   ("i3", Some "c", VDict {[ "source" := "notes.txt" ]})].

(** The service [s] with another configuration object. *)
Definition with_config {X} (s : ChromaDBService X) (cfg : Configurator)
  : ChromaDBService X :=
  {| config := cfg; embedding_function := embedding_function s;
     client := client s; collection := collection s |}.

(** The configuration fields that [__init__] hands to its collaborators. *)
Definition same_store_settings (cfg cfg' : Configurator) : Prop :=
  api_config cfg = api_config cfg'
  ∧ db_directory (data_config cfg) = db_directory (data_config cfg')
  ∧ db_name (data_config cfg) = db_name (data_config cfg')
  ∧ embedding_model (data_config cfg) = embedding_model (data_config cfg')
  ∧ distance_metric (data_config cfg) = distance_metric (data_config cfg').

(** A service whose configuration names a tokenizer that the registry of
    [std_env] does not know. *)
Definition typo_config : Configurator := test_config 4 1 "cl100k_bse" [].
Definition typo_service : ChromaDBService std_env :=
  Build_ChromaDBService std_env typo_config () () ().

(** ** Definitions for the further properties *)

(** [controller.py]: the part of [Controller.__init__] that builds the
    store.  [AgentHandler] wraps third-party objects only; its constructor
    is the parameter [new_agents]. *)
Record Controller (X : External) (H : Type) := {
  ctl_config : Configurator;
  chroma_db : ChromaDBService X;
  agent_handler : H
}.
Arguments ctl_config {X H} _.
Arguments chroma_db {X H} _.
Arguments agent_handler {X H} _.

Definition Controller_init {X : External} {H : Type}
    (new_agents : Configurator → Result H) (config : Configurator)
  : M X (Controller X H) :=
  db_service <- __init__ config true ;;
  initialize_db db_service ;;;
  agents <- lift (new_agents config) ;;
  ret {| ctl_config := config; chroma_db := db_service; agent_handler := agents |}.

(** A store that lets only full batches of two through. *)
Definition accept_pairs (b : Batch) : bool := 2 <=? length (b_documents b).
Definition pairs_env : External := mem_env known_encodings accept_pairs ∅.

(** An in-memory environment whose client cannot open the directory. *)
Definition locked_env : External :=
  {| Db := list (string * option string * value);
     EmbeddingFn := unit; Client := unit; Collection := unit;
     Distance := nat; dist_le := le;
     get_encoding := known_encodings;
     OpenAIEmbeddingFunction := λ _ _, Ok ();
     path_exists := λ _ _, true;
     rmtree := λ _ _, (Ok (), []);
     makedirs := λ _ d, (Ok (), d);
     PersistentClient := λ _ d, (Raise (ExternalError "database is locked"), d);
     get_or_create_collection := λ _ _ _ _ d, (Ok (), d);
     collection_add := λ _ b d, (Ok (), d ++ mem_entries b);
     collection_count := λ _ d, (Ok (Z.of_nat (length d)), d);
     collection_query := λ _ _ _ _ d, (Ok ([], [], [], []), d);
     uuid4 := λ n, "uuid";
     load_json := λ _, Raise (ExternalError "No such file or directory");
     py_str := mem_str |}.

(** ** [utils/prompt_handler.py]

    The YAML and JSON libraries, the path arithmetic and the file system
    are collaborators.  [yml.safe_load] gives [None] for an empty
    document, hence the option. *)
Record PromptFiles := {
  Prompt : Type;
  Disk : Type;
  prompts_path : string → string;
  open_read : string → Disk → Result string;
  write_file : string → string → Disk → Result unit * Disk;
  yaml_safe_load : string → Result (option Prompt);
  yaml_dump : Prompt → string;
  json_dump : Prompt → string
}.

Record PromptHandler (P : PromptFiles) := {
  prompt_file : string;
  as_dict : option (Prompt P)
}.
Arguments prompt_file {P} _.
Arguments as_dict {P} _.

Definition PromptHandler_init {P : PromptFiles} (file : string) : PromptHandler P :=
  {| prompt_file := prompts_path P file; as_dict := None |}.

(** [read]: the result, the handler afterwards, the disk afterwards. *)
Definition PromptHandler_read {P : PromptFiles} (self : PromptHandler P) (d : Disk P)
  : Result (option (Prompt P)) * PromptHandler P * Disk P :=
  match as_dict self with
  | Some p => (Ok (Some p), self, d)
  | None =>
      match open_read P (prompt_file self) d with
      | Raise e => (Raise e, self, d)
      | Ok content =>
          match yaml_safe_load P content with
          | Raise e => (Raise e, self, d)
          | Ok loaded =>
              (Ok loaded, {| prompt_file := prompt_file self; as_dict := loaded |}, d)
          end
      end
  end.

(** [write] assigns no attribute of the handler. *)
Definition PromptHandler_write {P : PromptFiles} (self : PromptHandler P)
    (prompt_dict : Prompt P) (fmt : string) (d : Disk P) : Result unit * Disk P :=
  if String.eqb fmt "json" then write_file P (prompt_file self) (json_dump P prompt_dict) d
  else if String.eqb fmt "yml" then
    write_file P (prompt_file self) (yaml_dump P prompt_dict) d
  else (Raise (ValueError "Format must be either 'yml' or 'json'"), d).

(** ** [configurator.py]: [assert_present] and [Configurator.configure] *)

Record ConfigDir := {
  ConfigDisk : Type;
  file_exists : string → ConfigDisk → bool;
  read_api_yml : string → ConfigDisk → Result APIConfig;
  read_agents_yml : string → ConfigDisk → Result (gmap string string);
  read_data_yml : string → ConfigDisk → Result DataConfig
}.

(** The attributes of a [Configurator] that [configure] reads and
    assigns. *)
Record ConfiguratorObject := {
  self_config_dir : string;
  self_api_config : APIConfig;
  self_agent_config_map : gmap string string;
  self_data_config : DataConfig;
  self_configured : bool
}.

Definition assert_present {C : ConfigDir} (filename : string) (d : ConfigDisk C)
  : Result unit :=
  if file_exists C filename d then Ok ()
  else Raise (Exception_ ("Cound not find " +:+ filename +:+ " in config directory")).

Definition __load_api_yml {C : ConfigDir} (self : ConfiguratorObject) (d : ConfigDisk C)
  : Result APIConfig :=
  let api_config := self_config_dir self +:+ "/api.yml" in
  _ <-? assert_present api_config d ;; read_api_yml C api_config d.

Definition __load_agents_yml {C : ConfigDir} (self : ConfiguratorObject) (d : ConfigDisk C)
  : Result (gmap string string) :=
  let agent_config := self_config_dir self +:+ "/agents.yml" in
  _ <-? assert_present agent_config d ;; read_agents_yml C agent_config d.

Definition __load_data_yml {C : ConfigDir} (self : ConfiguratorObject) (d : ConfigDisk C)
  : Result DataConfig :=
  let data_config := self_config_dir self +:+ "/data.yml" in
  _ <-? assert_present data_config d ;; read_data_yml C data_config d.

(** [configure]: the outcome and the object afterwards.  Each attribute is
    assigned as soon as its file is loaded. *)
Definition configure {C : ConfigDir} (self : ConfiguratorObject)
    (override_configuration : bool) (d : ConfigDisk C)
  : Result unit * ConfiguratorObject :=
  if override_configuration || negb (self_configured self) then
    match __load_api_yml self d with
    | Raise e => (Raise e, self)
    | Ok a =>
        let self1 :=
          {| self_config_dir := self_config_dir self; self_api_config := a;
             self_agent_config_map := self_agent_config_map self;
             self_data_config := self_data_config self;
             self_configured := self_configured self |} in
        match __load_agents_yml self1 d with
        | Raise e => (Raise e, self1)
        | Ok m =>
            let self2 :=
              {| self_config_dir := self_config_dir self; self_api_config := a;
                 self_agent_config_map := m;
                 self_data_config := self_data_config self;
                 self_configured := self_configured self |} in
            match __load_data_yml self2 d with
            | Raise e => (Raise e, self2)
            | Ok dc =>
                (Ok (),
                 {| self_config_dir := self_config_dir self; self_api_config := a;
                    self_agent_config_map := m; self_data_config := dc;
                    self_configured := true |})
            end
        end
    end
  else (Ok (), self).

(** ** [utils/embedding_functions.py] *)

Definition ascii_letters : string :=
  "abcdefghijklmnopqrstuvwxyzABCDEFGHIJKLMNOPQRSTUVWXYZ".
Definition digits : string := "0123456789".

(** [random.choice(seq)] is [seq[randbelow(len(seq))]]; draw number [k] of
    the generator is [rng k], reduced below the length. *)
Definition random_choice (rng : nat → nat) (k : nat) (chars : list ascii)
  : Result ascii :=
  match chars !! (rng k `mod` length chars) with
  | Some c => Ok c
  | None => Raise (IndexError "Cannot choose from an empty sequence")
  end.

(** [generate_random_string(length)], started at draw [k]. *)
Definition generate_random_string (rng : nat → nat) (k : nat) (length : Z)
  : Result string :=
  let characters := ascii_letters +:+ digits in
  cs <-? rmapM (λ i, random_choice rng (k + i) (list_ascii_of_string characters))
           (seq 0 (Z.to_nat length)) ;;
  Ok (string_of_list_ascii cs).

(** One element of the [data] list of an embeddings response. *)
Record EmbeddingItem (E : Type) := { e_index : Z; e_embedding : E }.
Arguments e_index {E} _.
Arguments e_embedding {E} _.

(** The [input] of an embeddings request: one text or a list. *)
Inductive EmbeddingInput :=
| OneText (text : string)
| ManyTexts (texts : list string).

(** What a call of the embedding function can raise: the client's
    exception, the [[0]] on an empty [data] list, the attribute that the
    response objects do not have, or the [ValueError] with which chromadb
    refuses the embeddings that the method returned. *)
Inductive CallError :=
| ClientError (e : Error)
| EmptyData
| AttributeError (name : string)
| InvalidEmbeddings (msg : string).

Record OpenAIEmbedding (E : Type) := {
  deployment_id : option string;
  _model_name : string;
  _client_create : string → EmbeddingInput → Result (list (EmbeddingItem E))
}.
Arguments deployment_id {E} _.
Arguments _model_name {E} _.
Arguments _client_create {E} _.

(** [t.replace("\n", " ")] *)
Fixpoint replace_newlines (t : string) : string :=
  match t with
  | EmptyString => EmptyString
  | String c t' =>
      String (if Ascii.eqb c "010"%char then " "%char else c) (replace_newlines t')
  end.

(** [sorted(l, key=...)]: a stable sort, here by insertion. *)
Fixpoint insert_by_key {A} (key : A → Z) (x : A) (l : list A) : list A :=
  match l with
  | [] => [x]
  | y :: l' => if (key x <=? key y)%Z then x :: y :: l' else y :: insert_by_key key x l'
  end.

Definition sorted_by_key {A} (key : A → Z) (l : list A) : list A :=
  foldr (insert_by_key key) [] l.

(** [result[0].enbedding]: the response objects carry [embedding] and
    [index]; there is no attribute of this name, so the access raises. *)
Definition enbedding {E} (item : EmbeddingItem E) : E + CallError :=
  inr (AttributeError "enbedding").

(** The loop of the deployment branch: one request per text. *)
Fixpoint embed_each {E} (self : OpenAIEmbedding E) (texts : list string)
  : list E + CallError :=
  match texts with
  | [] => inl []
  | text :: texts' =>
      match _client_create self (_model_name self) (OneText text) with
      | Raise e => inr (ClientError e)
      | Ok [] => inr EmptyData
      | Ok (first :: _) =>
          match enbedding first with
          | inr err => inr err
          | inl json =>
              match embed_each self texts' with
              | inl embeddings => inl (json :: embeddings)
              | inr err => inr err
              end
          end
      end
  end.

(** The body of [__call__] as the class defines it. *)
Definition OpenAIEmbedding_call {E} (self : OpenAIEmbedding E) (texts : list string)
  : list E + CallError :=
  let texts := replace_newlines <$> texts in
  match deployment_id self with
  | Some _ => embed_each self texts
  | None =>
      match _client_create self (_model_name self) (ManyTexts texts) with
      | Raise e => inr (ClientError e)
      | Ok embeddings => inl (e_embedding <$> sorted_by_key e_index embeddings)
      end
  end.

(** The class derives from chromadb's [EmbeddingFunction], which replaces
    the [__call__] of every subclass by a wrapper: the method's result is
    validated before the caller gets it, and an empty list of embeddings
    is refused with [ValueError]; an exception of the method passes
    through.  The vectors are the client's floats and stay abstract. *)
Definition validate_embeddings {E} (embeddings : list E) : list E + CallError :=
  match embeddings with
  | [] => inr (InvalidEmbeddings
                 "Expected embeddings to be a list with at least one item")
  | _ :: _ => inl embeddings
  end.

(** What calling an [OpenAIEmbeddingFunction] object does: the wrapper
    around the method above. *)
Definition EmbeddingFunction_call {E} (self : OpenAIEmbedding E) (texts : list string)
  : list E + CallError :=
  match OpenAIEmbedding_call self texts with
  | inl embeddings => validate_embeddings embeddings
  | inr err => inr err
  end.

(** ** [app.py]: the chat relay *)

Record Message := { role : string; content : string }.

(** The history after the given rounds of user message and reply. *)
Definition rounds_history (rounds : list (string * string)) : list Message :=
  concat ((λ r, [{| role := "user"; content := r.1 |};
                 {| role := "assistant"; content := r.2 |}]) <$> rounds).

(** The comprehension that builds the chatbot display: every user message
    of the history but the last entry, paired with the entry after it. *)
Fixpoint display_from (history : list Message) (i : nat) (prefix : list Message)
  : Result (list (string * string)) :=
  match prefix with
  | [] => Ok []
  | m :: prefix' =>
      if String.eqb (role m) "user" then
        match history !! (i + 1) with
        | Some next =>
            rest <-? display_from history (i + 1) prefix' ;;
            Ok ((content m, content next) :: rest)
        | None => Raise (IndexError "list index out of range")
        end
      else display_from history (i + 1) prefix'
  end.

(** [chat_with_backend]; [post] is the request to the backend with the
    history as it stands, giving the [response] field of the answer when
    it has one.  The history list is extended in place: the second
    component is the same list afterwards. *)
Definition chat_with_backend (post : list Message → Result (option string))
    (user_input : string) (message_history : list Message)
  : Result (list (string * string) * list Message) :=
  let message_history := message_history ++ [{| role := "user"; content := user_input |}] in
  let assistant_reply :=
    match post message_history with
    | Ok (Some reply) => reply
    | Ok None => "[No response]"
    | Raise e => "[Error] " +:+ str_of_error e
    end in
  let message_history :=
    message_history ++ [{| role := "assistant"; content := assistant_reply |}] in
  chatbot_display <-? display_from message_history 0 (removelast message_history) ;;
  Ok (chatbot_display, message_history).

(** In-memory instances of the collaborators of the prompt handler, the
    configurator and the embedding function. *)
Definition mem_prompts : PromptFiles :=
  {| Prompt := string;
     Disk := gmap string string;
     prompts_path := λ f, "prompts/" +:+ f;
     open_read := λ p d, match d !! p with
                         | Some c => Ok c
                         | None => Raise (ExternalError "No such file or directory")
                         end;
     write_file := λ p c d, (Ok (), <[p := c]> d);
     yaml_safe_load := λ c, if String.eqb c EmptyString then Ok None else Ok (Some c);
     yaml_dump := λ p, p;
     json_dump := λ p, p |}.

Definition mem_config_dir : ConfigDir :=
  {| ConfigDisk := list string;
     file_exists := λ p d, bool_decide (p ∈ d);
     read_api_yml := λ _ _, Ok {| openai_key := Some "sk-from-file" |};
     read_agents_yml := λ _ _, Ok ∅;
     read_data_yml := λ _ _, Ok (data_config (test_config 4 1 "cl100k_base" [])) |}.

Definition unconfigured : ConfiguratorObject :=
  {| self_config_dir := "config"; self_api_config := {| openai_key := None |};
     self_agent_config_map := ∅;
     self_data_config := data_config (test_config 0 0 EmptyString []);
     self_configured := false |}.

Definition configured_object : ConfiguratorObject :=
  {| self_config_dir := "config";
     self_api_config := {| openai_key := Some "sk-from-file" |};
     self_agent_config_map := ∅;
     self_data_config := data_config (test_config 4 1 "cl100k_base" []);
     self_configured := true |}.

(** A client that answers a list request with two items, last first. *)
Definition reversing_client (model : string) (input : EmbeddingInput)
  : Result (list (EmbeddingItem string)) :=
  match input with
  | OneText t => Ok [{| e_index := 0; e_embedding := t |}]
  | ManyTexts _ =>
      Ok [{| e_index := 1; e_embedding := "second" |};
          {| e_index := 0; e_embedding := "first" |}]
  end.

Definition plain_embedding : OpenAIEmbedding string :=
  {| deployment_id := None; _model_name := "text-embedding-ada-002";
     _client_create := reversing_client |}.

Definition deployed_embedding : OpenAIEmbedding string :=
  {| deployment_id := Some "my-deployment"; _model_name := "text-embedding-ada-002";
     _client_create := reversing_client |}.

(** ** [tools/search_tool.py]: [extract_webpage_info]

    [requests.get] and the HTML parser are collaborators: [fetch_soup] is
    [BeautifulSoup(requests.get(url).text, "html.parser")], which may
    raise; [soup_text] and [soup_title] are [soup.get_text()] and the text
    of [soup.find('title')] when there is such a tag. *)
Record Web := {
  Soup : Type;
  fetch_soup : string → Result Soup;
  soup_text : Soup → string;
  soup_title : Soup → option string
}.

(** The dict that [extract_webpage_info] returns. *)
Record PageInfo := {
  pi_query : string;
  pi_url : string;
  pi_title : option string;
  pi_content : option string
}.

Definition extract_webpage_info (W : Web) (search_term url : string) : PageInfo :=
  match fetch_soup W url with
  | Ok soup =>
      {| pi_query := search_term; pi_url := url;
         pi_title := soup_title W soup; pi_content := Some (soup_text W soup) |}
  | Raise _ =>
      {| pi_query := search_term; pi_url := url; pi_title := None; pi_content := None |}
  end.

(** The [SearchResultItem] that [process_multiple_searches] builds from
    one such dict. *)
Definition search_result_item (res : PageInfo) : SearchResultItem :=
  {| sr_url := pi_url res; sr_title := pi_title res; sr_content := pi_content res;
     sr_query := pi_query res |}.

Definition is_Ok {A} (r : Result A) : bool :=
  match r with Ok _ => true | Raise _ => false end.

(** A web where only [https://ok.example] can be fetched. *)
Definition one_page_web : Web :=
  {| Soup := string;
     fetch_soup := λ url, if String.eqb url "https://ok.example" then Ok "x"
                          else Raise (ExternalError "connection refused");
     soup_text := λ s, s;
     soup_title := λ _, None |}.

(** * Properties *)

(** ** The list primitives on small inputs *)

Example slice_pos : slice_from_step [10; 11; 12; 13; 14]%Z 1 2 = Ok [11; 13]%Z.
Proof. reflexivity. Qed.
Example slice_neg : slice_from_step [10; 11; 12; 13; 14]%Z 3 (-2) = Ok [13; 11]%Z.
Proof. reflexivity. Qed.
Example slice_neg_clamped : slice_from_step [10; 11; 12]%Z 7 (-1) = Ok [12; 11; 10]%Z.
Proof. reflexivity. Qed.
Example batched_5_2 : batched [1; 2; 3; 4; 5] 2 = Ok [[1; 2]; [3; 4]; [5]].
Proof. reflexivity. Qed.

(** ** Facts about lists *)

Section ListFacts.
Context {A : Type}.
Implicit Types l : list A.

Lemma omap_seq_total (f : nat → option A) n :
  (∀ j, j < n → is_Some (f j)) → Some <$> omap f (seq 0 n) = f <$> seq 0 n.
Proof.
  induction n as [|n IH]; intros Hf; [done|].
  rewrite seq_S, omap_app, !fmap_app, IH by (intros; apply Hf; lia).
  f_equal. simpl. destruct (Hf n) as [y Hy]; [lia|]. by rewrite Hy.
Qed.

Lemma omap_seq_lookup (f : nat → option A) n j :
  (∀ j, j < n → is_Some (f j)) →
  omap f (seq 0 n) !! j = if decide (j < n) then f j else None.
Proof.
  intros Hf. pose proof (omap_seq_total f n Hf) as E.
  apply (f_equal (λ l : list (option A), l !! j)) in E. rewrite !list_lookup_fmap in E.
  case_decide as Hj.
  - rewrite lookup_seq_lt in E by done. simpl in E.
    destruct (Hf j Hj) as [y Hy]. rewrite Hy in E |- *.
    destruct (omap f (seq 0 n) !! j); simpl in E; congruence.
  - rewrite lookup_seq_ge in E by lia.
    destruct (omap f (seq 0 n) !! j); simpl in E; congruence.
Qed.

Lemma max_list_intro (ns : list nat) m :
  Forall (λ n, n ≤ m) ns → m ∈ ns → max_list ns = m.
Proof.
  induction 1 as [|n ns Hn Hns IH]; [by intros ?%elem_of_nil|].
  intros [->|Hin]%elem_of_cons; simpl.
  - assert (max_list ns ≤ n); [|lia].
    clear IH Hn. induction Hns; simpl; lia.
  - rewrite IH by done. lia.
Qed.

(** The fields [a .. a + c - 1] of [l], looked up one by one. *)
Lemma lookups_filter l a c :
  List.filter is_not_None ((λ i, l !! (i + a)) <$> seq 0 c) = Some <$> take c (drop a l).
Proof.
  induction c as [|c IH]; [done|].
  rewrite seq_S, fmap_app, List.filter_app, IH. simpl.
  destruct (l !! (c + a)) as [x|] eqn:E; simpl.
  - rewrite (take_S_r _ _ x) by (by rewrite lookup_drop, Nat.add_comm).
    by rewrite fmap_app.
  - rewrite app_nil_r. f_equal.
    rewrite !take_ge; [done| |]; rewrite length_drop;
      apply lookup_ge_None in E; lia.
Qed.

Lemma lookups_full l a c :
  a + c ≤ length l →
  (λ i, l !! (i + a)) <$> seq 0 c = Some <$> take c (drop a l).
Proof.
  intros Hc. induction c as [|c IH]; [done|].
  rewrite seq_S, fmap_app, IH by lia. simpl.
  destruct (lookup_lt_is_Some_2 l (c + a)) as [x E]; [lia|].
  rewrite E, (take_S_r _ _ x) by (by rewrite lookup_drop, Nat.add_comm).
  by rewrite fmap_app.
Qed.
End ListFacts.

(** ** The chunker on a valid configuration *)

Section Windows.
Context {A : Type}.
Implicit Types l : list A.

Lemma slice_from_step_pos l i s :
  0 < s → slice_from_step l i (Z.of_nat s) = Ok (pos_slice l i s).
Proof.
  intros Hs. unfold slice_from_step, pos_slice.
  destruct (Z.eqb_spec (Z.of_nat s) 0) as [|_]; [lia|].
  destruct (Z.ltb_spec 0 (Z.of_nat s)) as [_|]; [|lia].
  by rewrite Nat2Z.id.
Qed.

Lemma pos_slice_lookup l i s j :
  0 < s → pos_slice l i s !! j = l !! (i + j * s).
Proof.
  intros Hs. unfold pos_slice.
  destruct (Nat.ltb_spec i (length l)) as [Hi|Hi].
  - rewrite omap_seq_lookup.
    + case_decide as Hj; [done|]. symmetry. apply lookup_ge_None.
      assert (S ((length l - i - 1) / s) ≤ j) as Hj' by lia.
      pose proof (Nat.div_mod_eq (length l - i - 1) s).
      pose proof (Nat.mod_upper_bound (length l - i - 1) s). nia.
    + intros k Hk. apply lookup_lt_is_Some.
      assert (k ≤ (length l - i - 1) / s) as Hk' by lia.
      pose proof (Nat.div_mod_eq (length l - i - 1) s). nia.
  - simpl. symmetry. apply lookup_ge_None. lia.
Qed.

Lemma window_count_spec L s :
  0 < s →
  L ≤ window_count L s * s ∧ (0 < L → (window_count L s - 1) * s < L) ∧
  (L = 0 → window_count L s = 0).
Proof.
  intros Hs. unfold window_count.
  pose proof (Nat.div_mod_eq (L + s - 1) s).
  pose proof (Nat.mod_upper_bound (L + s - 1) s).
  repeat split; [nia|intros; nia|].
  intros ->. apply Nat.div_small. lia.
Qed.

Lemma window_count_lt L s j :
  0 < s → j < window_count L s ↔ j * s < L.
Proof.
  intros Hs. destruct (window_count_spec L s Hs) as (H1 & H2 & H3).
  split; intros Hj.
  - assert (0 < L) by (destruct L; [rewrite H3 in Hj by done|]; lia).
    specialize (H2 ltac:(done)). nia.
  - nia.
Qed.

Lemma pos_slices_rows l c s :
  0 < s → 0 < c →
  max_list (length <$> ((λ i, pos_slice l i s) <$> seq 0 c)) = window_count (length l) s.
Proof.
  intros Hs Hc. destruct (window_count_spec (length l) s Hs) as (H1 & H2 & H3).
  apply max_list_intro.
  - apply Forall_fmap, Forall_fmap, Forall_forall. intros i _. simpl.
    apply lookup_ge_None. rewrite pos_slice_lookup by done.
    apply lookup_ge_None. lia.
  - apply list_elem_of_fmap. exists (pos_slice l 0 s). split.
    + apply Nat.le_antisymm.
      * destruct (decide (window_count (length l) s = 0)) as [->|Hne]; [lia|].
        assert (window_count (length l) s - 1 < length (pos_slice l 0 s)); [|lia].
        apply lookup_lt_is_Some. rewrite pos_slice_lookup by done.
        apply lookup_lt_is_Some. simpl.
        assert (0 < length l) by (destruct (length l); [rewrite H3 in Hne|]; lia).
        auto.
      * apply lookup_ge_None. rewrite pos_slice_lookup by done.
        apply lookup_ge_None. lia.
    + apply list_elem_of_fmap. exists 0. split; [done|].
      apply elem_of_seq. lia.
Qed.
End Windows.

Lemma rmapM_fmap_ok {A B C} (f : B → Result C) (g : A → B) (h : A → C) (l : list A) :
  (∀ x, x ∈ l → f (g x) = Ok (h x)) → rmapM f (g <$> l) = Ok (h <$> l).
Proof.
  induction l as [|x l IH]; intros Hf; [done|].
  rewrite !fmap_cons. cbn [rmapM].
  rewrite Hf by apply list_elem_of_here. cbn [rbind].
  rewrite IH by (intros; apply Hf; by apply list_elem_of_further). done.
Qed.

Lemma yield_chunks_valid (document : list token) (chunk_size overlap : Z) :
  (0 ≤ overlap < chunk_size)%Z →
  _yield_chunks document chunk_size overlap =
    Ok ((λ w : list token, Some <$> w) <$> sliding_windows document (Z.to_nat chunk_size)
                        (Z.to_nat (chunk_size - overlap))).
Proof.
  intros HO. unfold _yield_chunks.
  set (c := Z.to_nat chunk_size). set (s := Z.to_nat (chunk_size - overlap)).
  assert (0 < c) as Hc by lia. assert (0 < s) as Hs by lia.
  replace (chunk_size - overlap)%Z with (Z.of_nat s) by lia.
  rewrite <- (list_fmap_id (seq 0 c)) at 1.
  rewrite (rmapM_fmap_ok _ _ (λ i, pos_slice document i s))
    by (intros; by apply slice_from_step_pos).
  simpl. f_equal. unfold zip_longest, sliding_windows.
  rewrite pos_slices_rows by done.
  rewrite <- !list_fmap_compose. apply list_fmap_ext.
  intros _ j _. simpl.
  rewrite <- list_fmap_compose.
  rewrite (list_fmap_ext _ (λ i, document !! (i + j * s)) (seq 0 c))
    by (intros; simpl; by apply pos_slice_lookup).
  assert (last ((λ i, document !! (i + j * s)) <$> seq 0 c)
          = Some (document !! (c - 1 + j * s))) as ->.
  { replace c with (S (c - 1)) at 1 by lia.
    rewrite seq_S, fmap_app. simpl. apply last_snoc. }
  destruct (document !! (c - 1 + j * s)) as [t|] eqn:E.
  - apply lookups_full. apply lookup_lt_Some in E. lia.
  - apply lookups_filter.
Qed.

Lemma tokens_of_Some (ts : list token) : tokens_of (Some <$> ts) = Some ts.
Proof.
  induction ts as [|t ts IH]; [done|].
  rewrite fmap_cons. cbn [tokens_of]. by rewrite IH.
Qed.

Lemma window_count_ceil (L : nat) (s : Z) :
  (0 < s)%Z → Z.of_nat (window_count L (Z.to_nat s)) = ceil_div (Z.of_nat L) s.
Proof.
  intros Hs. unfold window_count, ceil_div.
  rewrite Nat2Z.inj_div. f_equal; lia.
Qed.

Section SlidingWindows.
Context {A : Type}.
Implicit Types (l w : list A).

Lemma sliding_windows_length l c s :
  length (sliding_windows l c s) = window_count (length l) s.
Proof. unfold sliding_windows. by rewrite length_fmap, length_seq. Qed.

Lemma sliding_windows_lookup l c s i w :
  0 < s →
  sliding_windows l c s !! i = Some w →
  i * s < length l ∧ w = take c (drop (i * s) l).
Proof.
  intros Hs. unfold sliding_windows. rewrite list_lookup_fmap.
  destruct (seq 0 _ !! i) as [j|] eqn:E; [|done].
  apply lookup_seq in E as [-> Hi]. simpl. intros [= <-].
  split; [|done]. by apply window_count_lt.
Qed.

Lemma sliding_windows_single l c s :
  0 < length l → length l ≤ s → s ≤ c → sliding_windows l c s = [l].
Proof.
  intros HL Hs Hc. unfold sliding_windows.
  assert (window_count (length l) s = 1) as ->.
  { unfold window_count. replace (length l + s - 1) with (length l - 1 + 1 * s) by lia.
    rewrite Nat.div_add by lia. rewrite Nat.div_small; lia. }
  cbn [fmap list_fmap seq]. rewrite Nat.mul_0_l, drop_0.
  by rewrite take_ge by lia.
Qed.

Lemma sliding_windows_nil c s : sliding_windows (@nil A) c s = [].
Proof.
  unfold sliding_windows, window_count. simpl.
  destruct s as [|s]; [done|]. rewrite Nat.div_small; [done|lia].
Qed.

Lemma window_overlap l c o i :
  o ≤ c →
  drop (c - o) (take c (drop (i * (c - o)) l)) = take o (take c (drop (S i * (c - o)) l)).
Proof.
  intros Ho. rewrite take_take, Nat.min_l by done.
  rewrite List.skipn_firstn_comm, drop_drop.
  f_equal; [lia|]. f_equal. lia.
Qed.
End SlidingWindows.

Section Chunker.
Context {X : External}.
Implicit Types self : ChromaDBService X.

Lemma get_chunks_valid self file_json text md enc document :
  let C := db_chunk_size (data_config (config self)) in
  let O := db_chunk_overlap (data_config (config self)) in
  (0 ≤ O < C)%Z →
  file_json !! "document" = Some (VStr text) →
  file_json !! "metadata" = Some md →
  get_encoding X (embedding_model_tokenizer (data_config (config self))) = Ok enc →
  enc_encode enc text = Ok document →
  get_chunks_and_metadatas self file_json =
    Ok (enc_decode enc <$> sliding_windows document (Z.to_nat C) (Z.to_nat (C - O)),
        replicate (window_count (length document) (Z.to_nat (C - O))) md).
Proof.
  intros C O HO Hdoc Hmd Henc Htok.
  unfold get_chunks_and_metadatas, getitem, encode.
  rewrite Hdoc, Hmd, Henc. cbn [rbind]. rewrite Htok. cbn [rbind].
  fold C O. rewrite yield_chunks_valid by done. cbn [rbind].
  rewrite (rmapM_fmap_ok _ _ (enc_decode enc)).
  - cbn [rbind]. by rewrite length_fmap, sliding_windows_length.
  - intros w _. unfold decode. rewrite Henc. cbn [rbind].
    by rewrite tokens_of_Some.
Qed.
End Chunker.

(** ** Claims about the chunker *)

Section ChunkerClaims.
Context {X : External}.
Implicit Types self : ChromaDBService X.

(** C1 (amended).  On a valid configuration ([0 <= overlap < chunk_size])
    and a document of [L > 0] tokens, [get_chunks_and_metadatas] returns
    exactly [ceil(L / (chunk_size - overlap))] chunks, each the decoding of
    one window and each with the record's metadata.  Window [i] starts at
    offset [i * (chunk_size - overlap)] and runs for [chunk_size] tokens or
    to the end of the document, so it has between 1 and [chunk_size]
    tokens and exactly [chunk_size] when it ends inside the document.  Two
    consecutive full windows share exactly [overlap] tokens: the last
    [overlap] tokens of the first are the first [overlap] of the second. *)
Theorem chunker_windows self file_json text md enc document :
  let C := db_chunk_size (data_config (config self)) in
  let O := db_chunk_overlap (data_config (config self)) in
  let c := Z.to_nat C in
  let o := Z.to_nat O in
  (0 ≤ O < C)%Z →
  file_json !! "document" = Some (VStr text) →
  file_json !! "metadata" = Some md →
  get_encoding X (embedding_model_tokenizer (data_config (config self))) = Ok enc →
  enc_encode enc text = Ok document →
  0 < length document →
  ∃ windows : list (list token),
    get_chunks_and_metadatas self file_json
      = Ok (enc_decode enc <$> windows, replicate (length windows) md)
    ∧ Z.of_nat (length windows) = ceil_div (Z.of_nat (length document)) (C - O)
    ∧ (∀ i w, windows !! i = Some w →
         w = take c (drop (i * (c - o)) document)
         ∧ 1 ≤ length w ≤ c
         ∧ (i * (c - o) + c ≤ length document → length w = c))
    ∧ (∀ i w w', windows !! i = Some w → windows !! S i = Some w' →
         length w = c → length w' = c →
         drop (c - o) w = take o w' ∧ length (take o w') = o).
Proof.
  intros C O c o HO Hdoc Hmd Henc Htok HL.
  assert (Z.to_nat (C - O) = c - o) as Hs by lia.
  assert (0 < c - o) as Hpos by lia.
  exists (sliding_windows document c (c - o)).
  split; [|split; [|split]].
  - rewrite sliding_windows_length, <- Hs.
    by apply (get_chunks_valid self file_json text md enc document).
  - rewrite sliding_windows_length, <- Hs. apply window_count_ceil. lia.
  - intros i w Hw. apply sliding_windows_lookup in Hw as [Hi ->]; [|done].
    split; [done|]. rewrite length_take, length_drop. lia.
  - intros i w w' Hw Hw' Hlen Hlen'.
    apply sliding_windows_lookup in Hw as [_ ->]; [|done].
    apply sliding_windows_lookup in Hw' as [_ ->]; [|done].
    split; [apply window_overlap; lia|].
    rewrite length_take. lia.
Qed.

(** C2 (amended).  On a valid configuration, a document of [L] tokens with
    [0 < L <= chunk_size - overlap] yields exactly one chunk, the decoding
    of the whole token sequence; a document that encodes to no tokens
    yields no chunks. *)
Theorem chunker_short_document self file_json text md enc document :
  let C := db_chunk_size (data_config (config self)) in
  let O := db_chunk_overlap (data_config (config self)) in
  (0 ≤ O < C)%Z →
  file_json !! "document" = Some (VStr text) →
  file_json !! "metadata" = Some md →
  get_encoding X (embedding_model_tokenizer (data_config (config self))) = Ok enc →
  enc_encode enc text = Ok document →
  (0 < length document → (Z.of_nat (length document) ≤ C - O)%Z →
     get_chunks_and_metadatas self file_json = Ok ([enc_decode enc document], [md]))
  ∧ (document = [] → get_chunks_and_metadatas self file_json = Ok ([], [])).
Proof.
  intros C O HO Hdoc Hmd Henc Htok.
  pose proof (get_chunks_valid self file_json text md enc document
                HO Hdoc Hmd Henc Htok) as E.
  fold C O in E. rewrite <- sliding_windows_length with (c := Z.to_nat C) in E.
  split.
  - intros HL Hle. rewrite sliding_windows_single in E by lia. exact E.
  - intros ->. by rewrite sliding_windows_nil in E.
Qed.
End ChunkerClaims.

Lemma chunker_windows_witness :
  ∃ windows : list (list token),
    get_chunks_and_metadatas (std_service 4 1) (record_of "abcdefgh" (VStr "notes"))
      = Ok (enc_decode char_encoding <$> windows,
            replicate (length windows) (VStr "notes"))
    ∧ Z.of_nat (length windows) = ceil_div (Z.of_nat (length abcdefgh)) (4 - 1)
    ∧ (∀ i w, windows !! i = Some w →
         w = take 4 (drop (i * (4 - 1)) abcdefgh)
         ∧ 1 ≤ length w ≤ 4
         ∧ (i * (4 - 1) + 4 ≤ length abcdefgh → length w = 4))
    ∧ (∀ i w w', windows !! i = Some w → windows !! S i = Some w' →
         length w = 4 → length w' = 4 →
         drop (4 - 1) w = take 1 w' ∧ length (take 1 w') = 1).
Proof.
  apply (chunker_windows (std_service 4 1) (record_of "abcdefgh" (VStr "notes"))
           "abcdefgh" (VStr "notes") char_encoding abcdefgh).
  - simpl. lia.
  - vm_compute. reflexivity.
  - vm_compute. reflexivity.
  - reflexivity.
  - reflexivity.
  - simpl. lia.
Defined.

Lemma chunker_short_document_witness :
  (0 < length [97; 98; 99]%Z → (Z.of_nat (length [97; 98; 99]%Z) ≤ 4 - 1)%Z →
     get_chunks_and_metadatas (std_service 4 1) (record_of "abc" VNone)
       = Ok ([enc_decode char_encoding [97; 98; 99]%Z], [VNone]))
  ∧ (@nil token = [] →
     get_chunks_and_metadatas (std_service 4 1) (record_of EmptyString VNone) = Ok ([], [])).
Proof.
  split.
  - apply (chunker_short_document (std_service 4 1) (record_of "abc" VNone)
             "abc" VNone char_encoding [97; 98; 99]%Z);
      [simpl; lia | vm_compute; reflexivity | vm_compute; reflexivity
      | reflexivity | reflexivity].
  - apply (chunker_short_document (std_service 4 1) (record_of EmptyString VNone)
             EmptyString VNone char_encoding []);
      [simpl; lia | vm_compute; reflexivity | vm_compute; reflexivity
      | reflexivity | reflexivity].
Defined.

(** C1 as stated fails: four tokens with [chunk_size = 4], [overlap = 1]
    give two chunks (the whole document, then its last token again), where
    [ceil((L - O) / (C - O)) = ceil(3 / 3) = 1]. *)
Lemma chunker_count_counterexample :
  get_chunks_and_metadatas (std_service 4 1) (record_of "abcd" VNone)
    = Ok (["abcd"; "d"], [VNone; VNone])
  ∧ enc_encode char_encoding "abcd" = Ok [97; 98; 99; 100]%Z
  ∧ Z.of_nat (length ["abcd"; "d"]) ≠ ceil_div (4 - 1) (4 - 1).
Proof. split; [|split]; [vm_compute; reflexivity .. | vm_compute; discriminate]. Qed.

(** The scenario of the specification: eight tokens, [chunk_size = 4],
    [overlap = 1] give the windows a-d, d-g, g-h. *)
Example chunker_eight_tokens :
  get_chunks_and_metadatas (std_service 4 1) (record_of "abcdefgh" VNone)
    = Ok (["abcd"; "defg"; "gh"], [VNone; VNone; VNone]).
Proof. vm_compute. reflexivity. Qed.

(** The window before the last need not be full either: five tokens with
    [chunk_size = 4], [overlap = 2] give windows of 4, 3 and 1 tokens. *)
Example chunker_partial_windows :
  get_chunks_and_metadatas (std_service 4 2) (record_of "abcde" VNone)
    = Ok (["abcd"; "cde"; "e"], [VNone; VNone; VNone]).
Proof. vm_compute. reflexivity. Qed.

(** C2 as stated fails: four tokens fit in [chunk_size = 5], yet with
    [overlap = 2] the chunker returns two chunks. *)
Lemma chunker_short_counterexample :
  enc_encode char_encoding "abcd" = Ok [97; 98; 99; 100]%Z
  ∧ (0 < length [97; 98; 99; 100]%Z ≤ 5)
  ∧ get_chunks_and_metadatas (std_service 5 2) (record_of "abcd" VNone)
      = Ok (["abcd"; "d"], [VNone; VNone])
  ∧ get_chunks_and_metadatas (std_service 5 2) (record_of "abcd" VNone)
      ≠ Ok ([enc_decode char_encoding [97; 98; 99; 100]%Z], [VNone]).
Proof.
  split; [vm_compute; reflexivity|]. split; [simpl; lia|].
  split; [vm_compute; reflexivity|]. vm_compute. discriminate.
Qed.



(** ** Facts about [batched] and [zip] *)

Section Batched.
Context {A : Type}.
Implicit Types l : list A.

Lemma batched_aux_concat fuel n l :
  0 < n → length l ≤ fuel → concat (batched_aux fuel n l) = l.
Proof.
  intros Hn. revert l. induction fuel as [|fuel IH]; intros l Hl.
  - destruct l; [done|simpl in Hl; lia].
  - destruct l as [|x l]; [done|]. cbn [batched_aux concat].
    rewrite IH by (rewrite length_drop; simpl in *; lia).
    apply take_drop.
Qed.

Lemma window_count_step L n :
  0 < n → 0 < L → window_count L n = S (window_count (L - n) n).
Proof.
  intros Hn HL. unfold window_count.
  destruct (decide (n ≤ L)) as [Hle|Hgt].
  - replace (L + n - 1) with (L - n + n - 1 + 1 * n) by lia.
    rewrite Nat.div_add by lia. lia.
  - replace (L - n) with 0 by lia.
    replace (L + n - 1) with (L - 1 + 1 * n) by lia.
    rewrite Nat.div_add by lia. rewrite !Nat.div_small by lia. done.
Qed.

Lemma batched_aux_windows fuel n l :
  0 < n → length l ≤ fuel → batched_aux fuel n l = sliding_windows l n n.
Proof.
  intros Hn. revert l. induction fuel as [|fuel IH]; intros l Hl.
  - destruct l; [|simpl in Hl; lia]. by rewrite sliding_windows_nil.
  - destruct l as [|x l]; [by rewrite sliding_windows_nil|].
    cbn [batched_aux]. rewrite IH by (rewrite length_drop; simpl in *; lia).
    unfold sliding_windows at 2.
    rewrite (window_count_step (length (x :: l)) n) by (simpl; lia).
    cbn [seq fmap list_fmap]. rewrite Nat.mul_0_l, drop_0. f_equal.
    unfold sliding_windows. rewrite length_drop, <- fmap_S_seq, <- list_fmap_compose.
    apply list_fmap_ext. intros _ j _. simpl. rewrite drop_drop. done.
Qed.

Lemma batched_windows l n :
  0 < n → batched l n = Ok (sliding_windows l n n).
Proof.
  intros Hn. unfold batched. destruct (Nat.eqb_spec n 0); [lia|].
  by rewrite batched_aux_windows.
Qed.

Lemma sliding_windows_concat l n : 0 < n → concat (sliding_windows l n n) = l.
Proof.
  intros Hn. rewrite <- (batched_aux_windows (length l)) by done.
  by apply batched_aux_concat.
Qed.
End Batched.

Lemma zip3_fmap_seq {A B C} (f : nat → A) (g : nat → B) (h : nat → C) k a b c :
  zip3 (f <$> seq k a) (g <$> seq k b) (h <$> seq k c)
  = (λ j, (f j, g j, h j)) <$> seq k (a `min` (b `min` c)).
Proof.
  revert k b c. induction a as [|a IH]; intros k b c; [done|].
  destruct b as [|b]; [done|]. destruct c as [|c]; [by rewrite Nat.min_0_r|].
  cbn [seq fmap list_fmap zip3 Nat.min]. f_equal. apply IH.
Qed.

(** ** Runs of [add_documents] *)

Section AddDocuments.
Context {X : External}.
Implicit Types (self : ChromaDBService X) (w : World X).

Lemma draw_uuids_run {A} (l : list A) w :
  draw_uuids l w
  = (Ok (uuid4 X <$> seq (uuids_drawn w) (length l)), after_draws w (length l)).
Proof.
  revert w. induction l as [|x l IH]; intros w.
  - unfold after_draws. simpl. unfold ret. destruct w as [d c u]; simpl.
    by rewrite Nat.add_0_r.
  - cbn [draw_uuids]. unfold bind at 1. unfold draw_uuid.
    unfold bind at 1. rewrite IH. unfold ret, after_draws. simpl.
    by rewrite Nat.add_succ_r.
Qed.

(** The store calls of the batch loop: the batches are submitted in order
    and the loop stops at the first call that raises. *)
Lemma for_each_batches self (bs : list Batch) w :
  ∃ k, k ≤ length bs
    ∧ calls (for_each bs (collection_add_call self) w).2
        = calls w ++ (CallAdd <$> take k bs)
    ∧ uuids_drawn (for_each bs (collection_add_call self) w).2 = uuids_drawn w
    ∧ ((for_each bs (collection_add_call self) w).1 = Ok () ∧ k = length bs
       ∨ ∃ e, (for_each bs (collection_add_call self) w).1 = Raise e ∧ 0 < k).
Proof.
  revert w. induction bs as [|b bs IH]; intros w.
  - exists 0. simpl. rewrite app_nil_r.
    split; [lia|]. split; [done|]. split; [done|]. by left.
  - cbn [for_each]. unfold bind at 1 2 3 4.
    unfold collection_add_call at 1 3 5 7. unfold bind, log_call, on_db. simpl.
    destruct (collection_add X (collection self) b (db w)) as [[[]|e] d] eqn:E.
    + match goal with |- context [for_each bs _ ?w1] =>
        destruct (IH w1) as (k & Hk & Hc & Hu & Hr) end.
      exists (S k). simpl in *. rewrite Hc, Hu, <- app_assoc. simpl.
      repeat split; [lia|]. destruct Hr as [[? ->]|[e [? ?]]]; [by left|right].
      exists e. split; [done|lia].
    + exists 1. simpl. repeat split; [lia|]. right.
      exists e. split; [done|lia].
Qed.

Lemma for_each_accepted self (bs : list Batch) w :
  (∀ b d, b ∈ bs → (collection_add X (collection self) b d).1 = Ok ()) →
  (for_each bs (collection_add_call self) w).1 = Ok ()
  ∧ calls (for_each bs (collection_add_call self) w).2 = calls w ++ (CallAdd <$> bs).
Proof.
  revert w. induction bs as [|b bs IH]; intros w Hacc.
  - simpl. by rewrite app_nil_r.
  - cbn [for_each]. unfold bind at 1 2.
    unfold collection_add_call at 1 3. unfold bind, log_call, on_db. simpl.
    pose proof (Hacc b (db w) (list_elem_of_here _ _)) as Hb.
    destruct (collection_add X (collection self) b (db w)) as [[[]|e] d]; [|done].
    match goal with |- context [for_each bs _ ?w1] =>
      destruct (IH w1) as [Hr Hc] end.
    { intros b' d' Hin. apply Hacc. by apply list_elem_of_further. }
    rewrite Hr, Hc. simpl. by rewrite <- app_assoc.
Qed.

Lemma for_each_app {A} (f : A → M X unit) l1 l2 w :
  for_each (l1 ++ l2) f w
  = match for_each l1 f w with
    | (Ok _, w1) => for_each l2 f w1
    | (Raise e, w1) => (Raise e, w1)
    end.
Proof.
  revert w. induction l1 as [|x l1 IH]; intros w; [done|].
  cbn [app for_each]. unfold bind. destruct (f x w) as [[[]|e] w1]; [apply IH|done].
Qed.

Lemma for_each_submitted self (bs : list Batch) w d1 :
  submit_all (collection self) bs (db w) = (Ok (), d1) →
  for_each bs (collection_add_call self) w
  = (Ok (), {| db := d1; calls := calls w ++ (CallAdd <$> bs);
               uuids_drawn := uuids_drawn w |}).
Proof.
  revert w. induction bs as [|b bs IH]; intros w.
  - simpl. intros [= <-]. unfold ret. rewrite app_nil_r. by destruct w.
  - cbn [submit_all for_each]. unfold bind at 1.
    unfold collection_add_call at 1. unfold bind, log_call, on_db. simpl.
    destruct (collection_add X (collection self) b (db w)) as [[[]|e] d]; [|done].
    intros Hs.
    match goal with |- context [for_each bs _ ?w1] => rewrite (IH w1 Hs) end.
    simpl. by rewrite <- app_assoc.
Qed.

Lemma for_each_raises self b (post : list Batch) w e d2 :
  collection_add X (collection self) b (db w) = (Raise e, d2) →
  for_each (b :: post) (collection_add_call self) w
  = (Raise e, {| db := d2; calls := calls w ++ [CallAdd b];
                 uuids_drawn := uuids_drawn w |}).
Proof.
  intros Hb. cbn [for_each]. unfold bind at 1.
  unfold collection_add_call, bind, log_call, on_db. simpl. by rewrite Hb.
Qed.

(** The outcome of the batch loop and the store it leaves are those of
    submitting the batches one after the other. *)
Lemma for_each_submit_all self (bs : list Batch) w :
  (for_each bs (collection_add_call self) w).1 = (submit_all (collection self) bs (db w)).1
  ∧ db (for_each bs (collection_add_call self) w).2
    = (submit_all (collection self) bs (db w)).2.
Proof.
  revert w. induction bs as [|b bs IH]; intros w; [done|].
  cbn [submit_all for_each]. unfold bind at 1 2.
  unfold collection_add_call at 1 3. unfold bind, log_call, on_db. simpl.
  destruct (collection_add X (collection self) b (db w)) as [[[]|e] d]; [|done].
  match goal with |- context [for_each bs _ ?w1] => apply (IH w1) end.
Qed.

(** The batch loop when the store raises on batch [b] after accepting the
    batches [pre]. *)
Lemma for_each_first_failure self (pre : list Batch) b (post : list Batch) w d1 d2 e :
  submit_all (collection self) pre (db w) = (Ok (), d1) →
  collection_add X (collection self) b d1 = (Raise e, d2) →
  for_each (pre ++ b :: post) (collection_add_call self) w
  = (Raise e, {| db := d2; calls := calls w ++ (CallAdd <$> pre) ++ [CallAdd b];
                 uuids_drawn := uuids_drawn w |}).
Proof.
  intros Hpre Hb. rewrite for_each_app, (for_each_submitted self pre w d1 Hpre).
  rewrite (for_each_raises self b post _ e d2) by done.
  simpl. by rewrite <- app_assoc.
Qed.
End AddDocuments.

Section AddDocumentsRun.
Context {X : External}.
Implicit Types (self : ChromaDBService X) (w : World X).

Lemma for_each_fmap {A B} (f : A → B) (g : B → M X unit) (h : A → M X unit) l w :
  (∀ x, h x = g (f x)) → for_each l h w = for_each (f <$> l) g w.
Proof.
  intros Hh. revert w. induction l as [|x l IH]; intros w; [done|].
  rewrite fmap_cons. cbn [for_each]. unfold bind. rewrite Hh.
  destruct (g (f x) w) as [[u|e] w']; [apply IH|done].
Qed.


Lemma add_documents_run B self documents metadatas ids w :
  0 < B → existsb is_None documents = false →
  let bs := submitted_batches B documents (resolved_metadatas documents metadatas)
              (resolved_ids documents ids w) in
  let run := for_each bs (collection_add_call self) (after_ids documents ids w) in
  add_documents_batched B self documents metadatas ids w
  = (match run.1 with
     | Ok _ => Ok (resolved_ids documents ids w)
     | Raise e => Raise e
     end, run.2).
Proof.
  intros HB Hnone bs run. unfold add_documents_batched.
  assert (∀ w1, w1 = after_ids documents ids w →
    bind (A:=unit) (if existsb is_None documents then raise AssertionError else ret ())
      (λ _, _docs <- lift (batched documents B) ;;
            _mds <- lift (batched (resolved_metadatas documents metadatas) B) ;;
            _ids <- lift (batched (resolved_ids documents ids w) B) ;;
            for_each (zip3 _docs _mds _ids)
              (λ '(_d, _m, _i),
                 collection_add_call self
                   {| b_documents := _d; b_metadatas := _m; b_ids := _i |}) ;;;
            ret (resolved_ids documents ids w)) w1
    = (match run.1 with
       | Ok _ => Ok (resolved_ids documents ids w)
       | Raise e => Raise e
       end, run.2)) as Hbody.
  { intros w1 ->. rewrite Hnone. rewrite !batched_windows by done.
    unfold bind, ret, lift. simpl.
    rewrite (for_each_fmap batch_of (collection_add_call self)) by (by intros [[? ?] ?]).
    fold (submitted_batches B documents (resolved_metadatas documents metadatas)
            (resolved_ids documents ids w)).
    fold bs. fold run. by destruct run as [[[]|e] w']. }
  destruct ids as [l|].
  - unfold bind at 1. unfold ret at 1. by apply Hbody.
  - unfold bind at 1. rewrite draw_uuids_run. by apply Hbody.
Qed.

Lemma add_documents_assert B self documents metadatas ids w :
  existsb is_None documents = true →
  add_documents_batched B self documents metadatas ids w
  = (Raise AssertionError, after_ids documents ids w).
Proof.
  intros Hnone. unfold add_documents_batched.
  destruct ids as [l|].
  - unfold bind at 1. unfold ret at 1. rewrite Hnone. done.
  - unfold bind at 1. rewrite draw_uuids_run. rewrite Hnone. done.
Qed.
End AddDocumentsRun.


Lemma submitted_batches_seq B documents metadatas ids :
  submitted_batches B documents metadatas ids
  = nth_batch B documents metadatas ids
      <$> seq 0 (window_count (length documents) B
                 `min` (window_count (length metadatas) B
                        `min` window_count (length ids) B)).
Proof.
  unfold submitted_batches, sliding_windows.
  rewrite zip3_fmap_seq, <- list_fmap_compose. done.
Qed.

Lemma window_count_mono L L' n : L ≤ L' → window_count L n ≤ window_count L' n.
Proof. intros H. unfold window_count. apply Nat.Div0.div_le_mono. lia. Qed.

Lemma concat_windows_prefix {A} (l : list A) n k :
  concat ((λ j, take n (drop (j * n) l)) <$> seq 0 k) = take (k * n) l.
Proof.
  induction k as [|k IH]; [done|].
  rewrite seq_S, fmap_app, concat_app, IH. simpl. rewrite app_nil_r.
  rewrite take_take_drop. f_equal. lia.
Qed.

Lemma last_batch_length N B :
  0 < B → 0 < N →
  B `min` (N - (window_count N B - 1) * B) = if N mod B =? 0 then B else N mod B.
Proof.
  intros HB HN. unfold window_count.
  pose proof (Nat.div_mod_eq N B) as E.
  pose proof (Nat.mod_upper_bound N B ltac:(lia)) as Hr.
  destruct (Nat.eqb_spec (N mod B) 0) as [H0|H0].
  - rewrite H0, Nat.add_0_r in E.
    assert ((N + B - 1) / B = N / B) as ->.
    { replace (N + B - 1) with (B - 1 + (N / B) * B) by lia.
      rewrite Nat.div_add by lia. rewrite Nat.div_small; lia. }
    assert (0 < N / B) by nia. nia.
  - assert ((N + B - 1) / B = S (N / B)) as ->.
    { replace (N + B - 1) with (N mod B - 1 + (S (N / B)) * B) by lia.
      rewrite Nat.div_add by lia. rewrite Nat.div_small; lia. }
    nia.
Qed.

Section AddDocumentsClaims.
Context {X : External}.
Implicit Types (self : ChromaDBService X) (w : World X).

(** C3 (amended).  With [N] documents, [N] metadatas and [N] ids (given, or
    one fresh UUID per document) and none of the documents null,
    [add_documents] at batch size [B] forms [ceil(N / B)] batches: batch
    [j] holds elements [j*B .. j*B + B - 1] of each of the three lists, so
    its three parts have the same length and the same indices, every
    batch but the last has [B] elements and the last has [N mod B], or
    [B] when that is zero; the batches concatenate to the original lists.
    The store's [add] is called on them in that order, stopping at the
    first call that raises.  When every call returns, all [ceil(N / B)]
    calls are made and the full id list is returned.  When the store
    raises on a batch, after accepting the ones before it,
    [add_documents] raises that very exception and returns no id list:
    the store is left as the failed call made it and the calls issued
    are the accepted batches and the failed one.  In one line: the
    outcome is the id list when submitting the batches one after the
    other succeeds, and the store's exception otherwise. *)
Theorem add_documents_batching B self documents metadatas ids w :
  let N := length documents in
  let mds := resolved_metadatas documents metadatas in
  let ids' := resolved_ids documents ids w in
  0 < B →
  existsb is_None documents = false →
  (∀ l, metadatas = Some l → length l = N) →
  (∀ l, ids = Some l → length l = N) →
  ∃ batches : list Batch,
    Z.of_nat (length batches) = ceil_div (Z.of_nat N) (Z.of_nat B)
    ∧ (∀ j b, batches !! j = Some b →
         b = nth_batch B documents mds ids' j
         ∧ length (b_documents b) = length (b_metadatas b)
         ∧ length (b_metadatas b) = length (b_ids b)
         ∧ (S j < length batches → length (b_documents b) = B)
         ∧ (S j = length batches →
            length (b_documents b) = if N mod B =? 0 then B else N mod B))
    ∧ concat (b_documents <$> batches) = documents
    ∧ concat (b_metadatas <$> batches) = mds
    ∧ concat (b_ids <$> batches) = ids'
    ∧ (∃ k, k ≤ length batches
         ∧ calls (add_documents_batched B self documents metadatas ids w).2
             = calls w ++ (CallAdd <$> take k batches)
         ∧ ((add_documents_batched B self documents metadatas ids w).1 = Ok ids'
            ∧ k = length batches
            ∨ ∃ e, (add_documents_batched B self documents metadatas ids w).1 = Raise e))
    ∧ ((∀ b d, b ∈ batches → (collection_add X (collection self) b d).1 = Ok ()) →
       (add_documents_batched B self documents metadatas ids w).1 = Ok ids'
       ∧ calls (add_documents_batched B self documents metadatas ids w).2
           = calls w ++ (CallAdd <$> batches))
    ∧ (∀ pre b post d1 d2 e,
         batches = pre ++ b :: post →
         submit_all (collection self) pre (db w) = (Ok (), d1) →
         collection_add X (collection self) b d1 = (Raise e, d2) →
         (add_documents_batched B self documents metadatas ids w).1 = Raise e
         ∧ db (add_documents_batched B self documents metadatas ids w).2 = d2
         ∧ calls (add_documents_batched B self documents metadatas ids w).2
           = calls w ++ (CallAdd <$> pre) ++ [CallAdd b])
    ∧ (add_documents_batched B self documents metadatas ids w).1
      = match (submit_all (collection self) batches (db w)).1 with
        | Ok _ => Ok ids'
        | Raise e => Raise e
        end
    ∧ db (add_documents_batched B self documents metadatas ids w).2
      = (submit_all (collection self) batches (db w)).2.
Proof.
  intros N mds ids' HB Hnone Hmd Hid.
  assert (length mds = N) as Hmds.
  { unfold mds, resolved_metadatas. destruct metadatas; [by apply Hmd|].
    by rewrite length_replicate. }
  assert (length ids' = N) as Hids.
  { unfold ids', resolved_ids. destruct ids; [by apply Hid|].
    by rewrite length_fmap, length_seq. }
  pose proof (submitted_batches_seq B documents mds ids') as Hbs.
  rewrite Hmds, Hids, !Nat.min_id in Hbs. fold N in Hbs.
  exists (submitted_batches B documents mds ids').
  rewrite (add_documents_run B self documents metadatas ids w HB Hnone).
  fold mds ids'. cbn [fst snd].
  assert (length (submitted_batches B documents mds ids') = window_count N B) as Hlen.
  { by rewrite Hbs, length_fmap, length_seq. }
  assert (db (after_ids documents ids w) = db w) as Hdb by (by destruct ids).
  split; [|split; [|split; [|split; [|split; [|split; [|split; [|split; [|split]]]]]]]].
  - rewrite Hlen, <- (Nat2Z.id B) at 1. apply window_count_ceil. lia.
  - intros j b Hb. rewrite Hlen. rewrite Hbs, list_lookup_fmap in Hb.
    destruct (seq 0 _ !! j) as [j'|] eqn:Ej; [|done].
    apply lookup_seq in Ej as [-> Hj]. simpl in Hb. injection Hb as <-.
    split; [done|]. simpl. rewrite !length_take, !length_drop, Hmds, Hids. fold N.
    apply window_count_lt in Hj as Hj'; [|done].
    split; [done|]. split; [done|]. split.
    + intros Hlt. apply window_count_lt in Hlt; [|done]. simpl in Hlt. lia.
    + intros Heq. rewrite <- (last_batch_length N B) by lia.
      rewrite <- Heq. simpl. by rewrite Nat.sub_0_r.
  - rewrite Hbs, <- list_fmap_compose.
    rewrite <- (sliding_windows_concat documents B HB) at 2. done.
  - rewrite Hbs, <- list_fmap_compose.
    rewrite <- (sliding_windows_concat mds B HB) at 2.
    unfold sliding_windows. by rewrite Hmds.
  - rewrite Hbs, <- list_fmap_compose.
    rewrite <- (sliding_windows_concat ids' B HB) at 2.
    unfold sliding_windows. by rewrite Hids.
  - destruct (for_each_batches self (submitted_batches B documents mds ids')
                (after_ids documents ids w)) as (k & Hk & Hc & _ & Hr).
    exists k. split; [done|]. split.
    + rewrite Hc. by destruct ids.
    + destruct Hr as [[-> ->]|[e [-> _]]]; [by left|right; by exists e].
  - intros Hacc.
    destruct (for_each_accepted self (submitted_batches B documents mds ids')
                (after_ids documents ids w) Hacc) as [-> ->].
    split; [done|]. by destruct ids.
  - intros pre b post d1 d2 e Hsplit Hpre Hb. rewrite Hsplit.
    rewrite (for_each_first_failure self pre b post (after_ids documents ids w) d1 d2 e)
      by (by rewrite ?Hdb).
    cbn [fst snd db calls]. by destruct ids.
  - destruct (for_each_submit_all self (submitted_batches B documents mds ids')
                (after_ids documents ids w)) as [-> _].
    by rewrite Hdb.
  - destruct (for_each_submit_all self (submitted_batches B documents mds ids')
                (after_ids documents ids w)) as [_ ->].
    by rewrite Hdb.
Qed.
End AddDocumentsClaims.

Section UnequalLengths.
Context {X : External}.
Implicit Types (self : ChromaDBService X) (w : World X).

(** C10 (amended).  [add_documents] does not compare the lengths of its
    lists and raises nothing on that account.  With [N] documents, none
    of them null, [M < N] metadatas and [N] ids, the loop runs over
    [ceil(M / B)] batches only: batch [j] pairs elements
    [j*B .. j*B + B - 1] of the documents and ids with what the metadatas
    have there (as many ids as documents, and no more metadatas than
    documents), and the documents from index [ceil(M / B) * B] on are in
    no [add] call.  Whether the call returns is up to the store: when
    the store lets the batches through, the call returns all [N] ids;
    when the store raises on one of them, [add_documents] raises that
    exception, with the store left as the failed call made it.  An
    exception can only come out of a store call. *)
Theorem add_documents_unequal_lengths B self documents mdl ids w :
  let N := length documents in
  let M := length mdl in
  let ids' := resolved_ids documents ids w in
  0 < B →
  existsb is_None documents = false →
  M < N →
  (∀ l, ids = Some l → length l = N) →
  ∃ batches : list Batch,
    Z.of_nat (length batches) = ceil_div (Z.of_nat M) (Z.of_nat B)
    ∧ (∀ j b, batches !! j = Some b →
         b = nth_batch B documents mdl ids' j
         ∧ length (b_ids b) = length (b_documents b)
         ∧ length (b_metadatas b) ≤ length (b_documents b))
    ∧ concat (b_documents <$> batches) = take (length batches * B) documents
    ∧ length ids' = N
    ∧ ((∀ b d, b ∈ batches → (collection_add X (collection self) b d).1 = Ok ()) →
       (add_documents_batched B self documents (Some mdl) ids w).1 = Ok ids'
       ∧ calls (add_documents_batched B self documents (Some mdl) ids w).2
           = calls w ++ (CallAdd <$> batches))
    ∧ (∃ k, k ≤ length batches
         ∧ calls (add_documents_batched B self documents (Some mdl) ids w).2
             = calls w ++ (CallAdd <$> take k batches)
         ∧ ((add_documents_batched B self documents (Some mdl) ids w).1 = Ok ids'
            ∧ k = length batches
            ∨ ∃ e, (add_documents_batched B self documents (Some mdl) ids w).1 = Raise e
                   ∧ 0 < k))
    ∧ (∀ pre b post d1 d2 e,
         batches = pre ++ b :: post →
         submit_all (collection self) pre (db w) = (Ok (), d1) →
         collection_add X (collection self) b d1 = (Raise e, d2) →
         (add_documents_batched B self documents (Some mdl) ids w).1 = Raise e
         ∧ db (add_documents_batched B self documents (Some mdl) ids w).2 = d2
         ∧ calls (add_documents_batched B self documents (Some mdl) ids w).2
           = calls w ++ (CallAdd <$> pre) ++ [CallAdd b])
    ∧ (add_documents_batched B self documents (Some mdl) ids w).1
      = match (submit_all (collection self) batches (db w)).1 with
        | Ok _ => Ok ids'
        | Raise e => Raise e
        end
    ∧ db (add_documents_batched B self documents (Some mdl) ids w).2
      = (submit_all (collection self) batches (db w)).2.
Proof.
  intros N M ids' HB Hnone HMN Hid.
  assert (length ids' = N) as Hids.
  { unfold ids', resolved_ids. destruct ids; [by apply Hid|].
    by rewrite length_fmap, length_seq. }
  pose proof (submitted_batches_seq B documents mdl ids') as Hbs.
  rewrite Hids in Hbs. fold N M in Hbs.
  assert (window_count M B ≤ window_count N B) as Hle
    by (apply window_count_mono; lia).
  rewrite (Nat.min_l (window_count M B)), Nat.min_r in Hbs by lia.
  exists (submitted_batches B documents mdl ids').
  rewrite (add_documents_run B self documents (Some mdl) ids w HB Hnone).
  cbn [resolved_metadatas fst snd]. fold ids'.
  assert (length (submitted_batches B documents mdl ids') = window_count M B) as Hlen.
  { by rewrite Hbs, length_fmap, length_seq. }
  assert (db (after_ids documents ids w) = db w) as Hdb by (by destruct ids).
  split; [|split; [|split; [|split; [|split; [|split; [|split; [|split]]]]]]].
  - rewrite Hlen, <- (Nat2Z.id B) at 1. apply window_count_ceil. lia.
  - intros j b Hb. rewrite Hbs, list_lookup_fmap in Hb.
    destruct (seq 0 _ !! j) as [j'|] eqn:Ej; [|done].
    apply lookup_seq in Ej as [-> Hj]. simpl in Hb. injection Hb as <-.
    split; [done|]. simpl. rewrite !length_take, !length_drop, Hids.
    fold N M. lia.
  - rewrite Hlen, Hbs, <- list_fmap_compose. apply concat_windows_prefix.
  - done.
  - intros Hacc.
    destruct (for_each_accepted self (submitted_batches B documents mdl ids')
                (after_ids documents ids w) Hacc) as [-> ->].
    split; [done|]. by destruct ids.
  - destruct (for_each_batches self (submitted_batches B documents mdl ids')
                (after_ids documents ids w)) as (k & Hk & Hc & _ & Hr).
    exists k. split; [done|]. split.
    + rewrite Hc. by destruct ids.
    + destruct Hr as [[-> ->]|[e [-> ?]]]; [by left|right; by exists e].
  - intros pre b post d1 d2 e Hsplit Hpre Hb. rewrite Hsplit.
    rewrite (for_each_first_failure self pre b post (after_ids documents ids w) d1 d2 e)
      by (by rewrite ?Hdb).
    cbn [fst snd db calls]. by destruct ids.
  - destruct (for_each_submit_all self (submitted_batches B documents mdl ids')
                (after_ids documents ids w)) as [-> _].
    by rewrite Hdb.
  - destruct (for_each_submit_all self (submitted_batches B documents mdl ids')
                (after_ids documents ids w)) as [_ ->].
    by rewrite Hdb.
Qed.

(** C5, the empty-string half, on the code: a document that is the empty
    string passes the [is None] assertion and is handed to the store's
    [add] like any other text. *)
Theorem add_documents_empty_text_submitted self md i w :
  calls (add_documents self [Some EmptyString] (Some [md]) (Some [i]) w).2
  = calls w ++ [CallAdd {| b_documents := [Some EmptyString]; b_metadatas := [md];
                           b_ids := [i] |}].
Proof.
  unfold add_documents, add_documents_batched, bind, ret, lift, raise. simpl.
  unfold bind, collection_add_call, bind, log_call, on_db, ret. simpl.
  by destruct (collection_add X (collection self) _ (db w)) as [[[]|e] d].
Qed.

(** The null half of C5 holds: when some document is [None] the call raises
    [AssertionError] with no call issued and the store untouched. *)
Lemma add_documents_null_rejected B self documents metadatas ids w :
  existsb is_None documents = true →
  (add_documents_batched B self documents metadatas ids w).1 = Raise AssertionError
  ∧ calls (add_documents_batched B self documents metadatas ids w).2 = calls w
  ∧ db (add_documents_batched B self documents metadatas ids w).2 = db w.
Proof.
  intros H. rewrite add_documents_assert by done. by destruct ids.
Qed.
End UnequalLengths.


Lemma add_documents_batching_witness :
  let docs := [Some "a"; Some "b"; Some "c"] in
  let mds := [VDict ∅; VDict ∅; VDict ∅] in
  let w := mem_world pairs_env [] in
  let self := test_service pairs_env () () () 4 1 in
  let run := add_documents_batched 2 self docs (Some mds) None w in
  ∃ batches : list Batch,
    Z.of_nat (length batches) = ceil_div 3 2
    ∧ (∀ j b, batches !! j = Some b →
         b = nth_batch 2 docs mds (resolved_ids docs None w) j
         ∧ length (b_documents b) = length (b_metadatas b)
         ∧ length (b_metadatas b) = length (b_ids b)
         ∧ (S j < length batches → length (b_documents b) = 2)
         ∧ (S j = length batches → length (b_documents b) = 1))
    ∧ concat (b_documents <$> batches) = docs
    ∧ concat (b_metadatas <$> batches) = mds
    ∧ concat (b_ids <$> batches) = ["uuid-A"; "uuid-B"; "uuid-C"]
    ∧ (∃ k, k ≤ length batches
         ∧ calls run.2 = calls w ++ (CallAdd <$> take k batches)
         ∧ (run.1 = Ok ["uuid-A"; "uuid-B"; "uuid-C"] ∧ k = length batches
            ∨ ∃ e, run.1 = Raise e))
    ∧ ((∀ b d, b ∈ batches → (collection_add pairs_env (collection self) b d).1 = Ok ()) →
       run.1 = Ok ["uuid-A"; "uuid-B"; "uuid-C"]
       ∧ calls run.2 = calls w ++ (CallAdd <$> batches))
    ∧ (∀ pre b post d1 d2 e,
         batches = pre ++ b :: post →
         submit_all (collection self) pre (db w) = (Ok (), d1) →
         collection_add pairs_env (collection self) b d1 = (Raise e, d2) →
         run.1 = Raise e
         ∧ db run.2 = d2
         ∧ calls run.2 = calls w ++ (CallAdd <$> pre) ++ [CallAdd b])
    ∧ run.1 = match (submit_all (collection self) batches (db w)).1 with
              | Ok _ => Ok ["uuid-A"; "uuid-B"; "uuid-C"]
              | Raise e => Raise e
              end
    ∧ db run.2 = (submit_all (collection self) batches (db w)).2.
Proof.
  intros docs mds w self run.
  apply (add_documents_batching (X:=pairs_env) 2 self docs (Some mds) None w).
  - lia.
  - reflexivity.
  - intros l [= <-]. reflexivity.
  - intros l. discriminate.
Defined.

(** The same run evaluated: the store takes the full batch and raises on
    the short one, and so does [add_documents]. *)
Example add_documents_batching_run :
  let run := add_documents_batched (X:=pairs_env) 2 (test_service pairs_env () () () 4 1)
               [Some "a"; Some "b"; Some "c"] (Some [VDict ∅; VDict ∅; VDict ∅]) None
               (mem_world pairs_env []) in
  run.1 = Raise (ExternalError "backend failure")
  ∧ db run.2 = [("uuid-A", Some "a", VDict ∅); ("uuid-B", Some "b", VDict ∅)].
Proof. vm_compute. split; reflexivity. Qed.

(** C3 as stated fails in its last part: when the store raises on a batch,
    [add_documents] raises too and returns no id list. *)
Lemma add_documents_returns_counterexample :
  (add_documents (X:=failing_env) (test_service failing_env () () () 4 1)
     [Some "hello"] (Some [VDict ∅]) (Some ["id-1"]) (mem_world failing_env [])).1
  = Raise (ExternalError "backend failure")
  ∧ (add_documents (X:=failing_env) (test_service failing_env () () () 4 1)
       [Some "hello"] (Some [VDict ∅]) (Some ["id-1"]) (mem_world failing_env [])).1
    ≠ Ok ["id-1"].
Proof. split; [vm_compute; reflexivity | vm_compute; discriminate]. Qed.

Lemma add_documents_unequal_lengths_witness :
  let docs := [Some "a"; Some "b"; Some "c"; Some "d"; Some "e"] in
  let mds := [VDict ∅; VDict ∅; VDict ∅] in
  let given := ["i1"; "i2"; "i3"; "i4"; "i5"] in
  let w := mem_world std_env [] in
  let self := std_service 4 1 in
  let run := add_documents_batched 2 self docs (Some mds) (Some given) w in
  ∃ batches : list Batch,
    Z.of_nat (length batches) = ceil_div 3 2
    ∧ (∀ j b, batches !! j = Some b →
         b = nth_batch 2 docs mds given j
         ∧ length (b_ids b) = length (b_documents b)
         ∧ length (b_metadatas b) ≤ length (b_documents b))
    ∧ concat (b_documents <$> batches) = take (length batches * 2) docs
    ∧ length given = 5
    ∧ ((∀ b d, b ∈ batches → (collection_add std_env (collection self) b d).1 = Ok ()) →
       run.1 = Ok given ∧ calls run.2 = calls w ++ (CallAdd <$> batches))
    ∧ (∃ k, k ≤ length batches
         ∧ calls run.2 = calls w ++ (CallAdd <$> take k batches)
         ∧ (run.1 = Ok given ∧ k = length batches
            ∨ ∃ e, run.1 = Raise e ∧ 0 < k))
    ∧ (∀ pre b post d1 d2 e,
         batches = pre ++ b :: post →
         submit_all (collection self) pre (db w) = (Ok (), d1) →
         collection_add std_env (collection self) b d1 = (Raise e, d2) →
         run.1 = Raise e
         ∧ db run.2 = d2
         ∧ calls run.2 = calls w ++ (CallAdd <$> pre) ++ [CallAdd b])
    ∧ run.1 = match (submit_all (collection self) batches (db w)).1 with
              | Ok _ => Ok given
              | Raise e => Raise e
              end
    ∧ db run.2 = (submit_all (collection self) batches (db w)).2.
Proof.
  intros docs mds given w self run.
  apply (add_documents_unequal_lengths (X:=std_env) 2 self docs mds (Some given) w).
  - lia.
  - reflexivity.
  - simpl. lia.
  - intros l [= <-]. reflexivity.
Defined.

(** C10 as stated fails: the call can raise.  A store that checks the
    lengths of what it is given refuses the batch of three documents and
    two metadatas, and [add_documents] raises with it. *)
Lemma add_documents_unequal_counterexample :
  (add_documents (X:=checking_env) (test_service checking_env () () () 4 1)
     [Some "a"; Some "b"; Some "c"] (Some [VDict ∅; VDict ∅]) None
     (mem_world checking_env [])).1
  = Raise (ExternalError "backend failure")
  ∧ ¬ ∃ ids, (add_documents (X:=checking_env) (test_service checking_env () () () 4 1)
                [Some "a"; Some "b"; Some "c"] (Some [VDict ∅; VDict ∅]) None
                (mem_world checking_env [])).1 = Ok ids.
Proof. split; [vm_compute; reflexivity | intros [ids H]; vm_compute in H; discriminate]. Qed.

(** What the store holds after that run: two of the four documents. *)
Example add_documents_unequal_run :
  let r := add_documents_batched (X:=std_env) 2 (std_service 4 1)
             [Some "a"; Some "b"; Some "c"; Some "d"] (Some [VNone; VNone])
             (Some ["i1"; "i2"; "i3"; "i4"]) (mem_world std_env []) in
  r.1 = Ok ["i1"; "i2"; "i3"; "i4"]
  ∧ db r.2 = [("i1", Some "a", VNone); ("i2", Some "b", VNone)].
Proof. vm_compute. split; reflexivity. Qed.

(** ** Ingestion *)

Section Ingestion.
Context {X : External}.
Implicit Types (self : ChromaDBService X) (w : World X).

(** Every chunk that the chunker returns carries the record's
    [metadata] value. *)
Lemma get_chunks_metadata self file_json chunks mds :
  get_chunks_and_metadatas self file_json = Ok (chunks, mds) →
  ∃ md, file_json !! "metadata" = Some md ∧ mds = replicate (length chunks) md.
Proof.
  unfold get_chunks_and_metadatas, getitem.
  destruct (file_json !! "document") as [doc|]; [|done]. cbn [rbind].
  destruct (encode self doc) as [document|]; [|done]. cbn [rbind].
  destruct (_yield_chunks _ _ _) as [windows|]; [|done]. cbn [rbind].
  destruct (rmapM _ windows) as [chs|]; [|done]. cbn [rbind].
  destruct (file_json !! "metadata") as [md|]; [|done]. cbn [rbind].
  intros [= <- <-]. by exists md.
Qed.

(** The loop of [initialize_db] stops at the first record that fails to
    chunk. *)
Lemma chunk_records_first_failure self pre d post e :
  Forall (λ r, ∃ cm, get_chunks_and_metadatas self r = Ok cm) pre →
  get_chunks_and_metadatas self d = Raise e →
  chunk_records self (pre ++ d :: post)
  = match d !! "metadata" with
    | Some md => Raise (Exception_ (ingest_message (X:=X) md e))
    | None => Raise (KeyError "metadata")
    end.
Proof.
  intros Hpre Hd. induction Hpre as [|r pre [[ch md] Hr] _ IH].
  - simpl. rewrite Hd. unfold getitem. by destruct (d !! "metadata").
  - simpl. rewrite Hr, IH. by destruct (d !! "metadata").
Qed.

(** Ingestion fails fast.  When the data files load and chunking fails on
    some record, [initialize_db] raises at the first such record; nothing
    is sent to the store and the store is unchanged, whatever the records
    before it produced.  If that record has a [metadata] entry, the error
    is the [Exception] whose message names that metadata and the cause. *)
Theorem initialize_db_fail_fast self w pre d post e :
  rmapM (load_json X) (data_files (config self)) = Ok (pre ++ d :: post) →
  Forall (λ r, ∃ cm, get_chunks_and_metadatas self r = Ok cm) pre →
  get_chunks_and_metadatas self d = Raise e →
  (∃ err, (initialize_db self w).1 = Raise err
          ∧ (∀ md, d !! "metadata" = Some md →
               err = Exception_ ("error reading file with metadata " +:+ py_str X md
                                 +:+ ", details follow ... " +:+ str_of_error e)))
  ∧ (initialize_db self w).2 = w.
Proof.
  intros Hload Hpre Hd. unfold initialize_db, bind, lift.
  rewrite Hload, (chunk_records_first_failure self pre d post e Hpre Hd).
  destruct (d !! "metadata") as [md|]; (split; [eexists; split; [done|]|done]).
  - by intros ? [= <-].
  - done.
Qed.

(** C6 on the code.  The handler of [initialize_db] builds its message
    from [d['metadata']].  When the first record that fails to chunk has
    no [metadata] entry, that lookup raises inside the handler: what
    comes out of [initialize_db] is the bare [KeyError] for [metadata],
    not the exception that names the record, whatever made the chunking
    fail.  Nothing is sent to the store. *)
Theorem initialize_db_handler_raises self w pre d post e :
  rmapM (load_json X) (data_files (config self)) = Ok (pre ++ d :: post) →
  Forall (λ r, ∃ cm, get_chunks_and_metadatas self r = Ok cm) pre →
  get_chunks_and_metadatas self d = Raise e →
  d !! "metadata" = None →
  initialize_db self w = (Raise (KeyError "metadata"), w)
  ∧ ∀ md e', KeyError "metadata" ≠ Exception_ (ingest_message (X:=X) md e').
Proof.
  intros Hload Hpre Hd Hmd. split; [|done].
  unfold initialize_db, bind, lift.
  by rewrite Hload, (chunk_records_first_failure self pre d post e Hpre Hd), Hmd.
Qed.

(** *** Search results *)

Lemma filter_filter {A} (f : A → bool) (l : list A) :
  List.filter f (List.filter f l) = List.filter f l.
Proof.
  induction l as [|x l IH]; [done|]. simpl.
  destruct (f x) eqn:E; [|done]. simpl. by rewrite E, IH.
Qed.




End Ingestion.

Lemma initialize_db_fail_fast_witness :
  (∃ err,
     (initialize_db (files_service ["no_document.json"]) (mem_world files_env [])).1
       = Raise err
     ∧ (∀ md, ({[ "metadata" := VStr "notes.txt" ]} : gmap string value) !! "metadata"
              = Some md →
          err = Exception_ ("error reading file with metadata " +:+ mem_str md
                            +:+ ", details follow ... "
                            +:+ str_of_error (KeyError "document"))))
  ∧ (initialize_db (files_service ["no_document.json"]) (mem_world files_env [])).2
    = mem_world files_env [].
Proof.
  apply (initialize_db_fail_fast (X:=files_env) (files_service ["no_document.json"])
           (mem_world files_env []) [] {[ "metadata" := VStr "notes.txt" ]} []
           (KeyError "document")).
  - vm_compute. reflexivity.
  - constructor.
  - vm_compute. reflexivity.
Defined.

Example initialize_db_names_metadata :
  (initialize_db (files_service ["no_document.json"]) (mem_world files_env [])).1
  = Raise (Exception_
      "error reading file with metadata notes.txt, details follow ... 'document'").
Proof. vm_compute. reflexivity. Qed.

(** The data file [{"document": "abc"}]: a record without [metadata]. *)
Lemma initialize_db_handler_raises_witness :
  initialize_db (files_service ["no_metadata.json"]) (mem_world files_env [])
  = (Raise (KeyError "metadata"), mem_world files_env [])
  ∧ ∀ md e', KeyError "metadata" ≠ Exception_ (ingest_message (X:=files_env) md e').
Proof.
  apply (initialize_db_handler_raises (X:=files_env) (files_service ["no_metadata.json"])
           (mem_world files_env []) [] {[ "document" := VStr "abc" ]} []
           (KeyError "metadata")).
  - vm_compute. reflexivity.
  - constructor.
  - vm_compute. reflexivity.
  - reflexivity.
Defined.

Example initialize_db_missing_metadata :
  (initialize_db (files_service ["no_metadata.json"]) (mem_world files_env [])).1
  = Raise (KeyError "metadata").
Proof. vm_compute. reflexivity. Qed.

(** The example of C7 on the in-memory store: the item with content ["x"]
    becomes one chunk, the null item leaves no trace. *)
Example add_search_results_two_items :
  let r := add_search_results (X:=std_env) (std_service 4 1)
             [sr_item (Some "x"); sr_item None] (mem_world std_env []) in
  r.1 = Ok ["uuid-A"]
  ∧ db r.2 = [("uuid-A", Some "x",
               VDict {[ "title" := EmptyString; "url" := "https://example.org" ]})]
  ∧ calls r.2 = [CallAdd {| b_documents := [Some "x"];
                            b_metadatas := [VDict {[ "title" := EmptyString;
                                                     "url" := "https://example.org" ]}];
                            b_ids := ["uuid-A"] |}].
Proof. vm_compute. repeat split; reflexivity. Qed.

Example add_search_results_all_null :
  add_search_results (X:=std_env) (std_service 4 1) [sr_item None; sr_item None]
    (mem_world std_env [])
  = (Raise AssertionError, mem_world std_env []).
Proof. reflexivity. Qed.

(** ** Query *)

Lemma zip4_length {A B C D} (a : list A) (b : list B) (c : list C) (d : list D) :
  length (zip4 a b c d)
  = length a `min` (length b `min` (length c `min` length d)).
Proof.
  revert b c d. induction a as [|x a IH]; intros [|y b] [|z c] [|u d]; try done.
  simpl. by rewrite IH.
Qed.

Lemma non_decreasing_take {D} (le : D → D → Prop) n (l : list D) :
  non_decreasing le l → non_decreasing le (take n l).
Proof.
  intros Hl i x y [Hx _]%lookup_take_Some [Hy _]%lookup_take_Some. eauto.
Qed.

Lemma zip4_columns {A B C D} (a : list A) (b : list B) (c : list C) (d : list D) :
  (λ r, r.1.1.1) <$> zip4 a b c d = take (length (zip4 a b c d)) a
  ∧ (λ r, r.1.1.2) <$> zip4 a b c d = take (length (zip4 a b c d)) b
  ∧ (λ r, r.1.2) <$> zip4 a b c d = take (length (zip4 a b c d)) c
  ∧ snd <$> zip4 a b c d = take (length (zip4 a b c d)) d.
Proof.
  revert b c d. induction a as [|x a IH]; intros [|y b] [|z c] [|u d]; try done.
  destruct (IH b c d) as (H1 & H2 & H3 & H4).
  repeat split; simpl; f_equal; assumption.
Qed.

Section Query.
Context {X : External}.
Implicit Types (self : ChromaDBService X) (w : World X).
Implicit Types rows : list (string * option string * value * Distance X).

(** Building the chunks of valid rows succeeds and keeps every field. *)
Lemma new_Chunk_rows rows :
  Forall (λ r, valid_row r = true) rows →
  ∃ chunks,
    rmapM (λ '(id, doc, md, dist), new_Chunk doc md dist id) rows = Ok chunks
    ∧ id <$> chunks = (λ r, r.1.1.1) <$> rows
    ∧ (λ ch, Some (text ch)) <$> chunks = (λ r, r.1.1.2) <$> rows
    ∧ (λ ch, VDict (metadata ch)) <$> chunks = (λ r, r.1.2) <$> rows
    ∧ distance <$> chunks = snd <$> rows.
Proof.
  induction 1 as [|[[[i doc] md] dist] rows Hrow _ (chunks & Hch & H1 & H2 & H3 & H4)].
  - by exists [].
  - simpl in Hrow. destruct doc as [t|]; [|done]. destruct md as [| | |m]; try done.
    exists ({| text := t; metadata := m; distance := dist; id := i |} :: chunks).
    cbn [rmapM new_Chunk rbind]. rewrite Hch. cbn [rbind].
    rewrite !fmap_cons, H1, H2, H3, H4. done.
Qed.

(** The first row from which no [Chunk] can be built makes the whole
    comprehension raise. *)
Lemma new_Chunk_invalid rows :
  Exists (λ r, valid_row r = false) rows →
  ∃ msg, rmapM (λ '(id, doc, md, dist), new_Chunk doc md dist id) rows
         = Raise (ValidationError msg).
Proof.
  induction 1 as [[[[i doc] md] dist] rows Hrow|[[[i doc] md] dist] rows _ [msg IH]].
  - simpl in Hrow. cbn [rmapM]. unfold new_Chunk.
    destruct doc as [t|]; [destruct md; try discriminate|]; eexists; reflexivity.
  - cbn [rmapM]. rewrite IH. unfold new_Chunk.
    destruct doc as [t|]; [destruct md|]; eexists; reflexivity.
Qed.

(** C4.  [query] asks the store for its count and then issues exactly one
    similarity search, with [n_results = max(1, min(k, count))]: at least
    1 always (so never 0, also on an empty collection), at most [count]
    when the collection is not empty, and 3 for [k = 100] on 3 chunks.
    When every row of the store's answer has a text and a metadata
    mapping, the chunks returned are the store's rows in the store's
    order, field by field, so they are in non-decreasing distance order
    when the store's rows are, and there are 3 of them when the store
    answers with 3.  A row without text or without such a mapping makes
    the construction of its [Chunk] raise [ValidationError]. *)
Theorem query_clamps_n_results self query_text n_results where_ ids w count d1 :
  collection_count X (collection self) (db w) = (Ok count, d1) →
  let n := Z.max 1 (Z.min n_results count) in
  calls (query self query_text n_results where_ ids w).2
    = calls w ++ [CallCount; CallQuery query_text n where_]
  ∧ (1 ≤ n)%Z
  ∧ (1 ≤ count → n ≤ count)%Z
  ∧ (1 ≤ n_results ≤ count → n = n_results)%Z
  ∧ (count = 0 → n = 1)%Z
  ∧ (n_results = 100 → count = 3 → n = 3)%Z
  ∧ (∀ r_ids r_docs r_mds r_dists ids0 docs0 mds0 dists0 d2,
       collection_query X (collection self) query_text n where_ d1
       = (Ok (ids0 :: r_ids, docs0 :: r_docs, mds0 :: r_mds, dists0 :: r_dists), d2) →
       (Forall (λ r, valid_row r = true) (zip4 ids0 docs0 mds0 dists0) →
        ∃ chunks,
          (query self query_text n_results where_ ids w).1 = Ok {| results := chunks |}
          ∧ length chunks
            = length ids0 `min` (length docs0 `min` (length mds0 `min` length dists0))
          ∧ id <$> chunks = take (length chunks) ids0
          ∧ (λ ch, Some (text ch)) <$> chunks = take (length chunks) docs0
          ∧ (λ ch, VDict (metadata ch)) <$> chunks = take (length chunks) mds0
          ∧ distance <$> chunks = take (length chunks) dists0
          ∧ (non_decreasing (dist_le X) dists0 →
             non_decreasing (dist_le X) (distance <$> chunks)))
       ∧ (Exists (λ r, valid_row r = false) (zip4 ids0 docs0 mds0 dists0) →
          ∃ msg, (query self query_text n_results where_ ids w).1
                 = Raise (ValidationError msg))).
Proof.
  intros Hcount n.
  split; [|split; [|split; [|split; [|split; [|split]]]]]; try (subst n; lia).
  - unfold query, get_count, bind, log_call, on_db, lift. simpl.
    rewrite Hcount. simpl. fold n.
    destruct (collection_query X (collection self) query_text n where_ d1)
      as [[[[[r_ids r_docs] r_mds] r_dists]|e] d2]; simpl; by rewrite <- app_assoc.
  - intros r_ids r_docs r_mds r_dists ids0 docs0 mds0 dists0 d2 Hq.
    set (rows := zip4 ids0 docs0 mds0 dists0).
    assert ((query self query_text n_results where_ ids w).1
            = (chunks <-? rmapM (λ '(id, doc, md, dist), new_Chunk doc md dist id) rows ;;
               Ok {| results := chunks |})) as Hrun.
    { unfold query, get_count, bind, log_call, on_db, lift. simpl.
      rewrite Hcount. simpl. fold n. rewrite Hq. simpl. reflexivity. }
    destruct (zip4_columns ids0 docs0 mds0 dists0) as (C1 & C2 & C3 & C4).
    fold rows in C1, C2, C3, C4.
    split.
    + intros Hvalid.
      destruct (new_Chunk_rows rows Hvalid) as (chunks & Hch & H1 & H2 & H3 & H4).
      exists chunks. rewrite Hrun, Hch. split; [done|].
      assert (length chunks = length rows) as Hlen.
      { apply (f_equal length) in H4. by rewrite !length_fmap in H4. }
      rewrite Hlen, H1, H2, H3, H4.
      split; [apply zip4_length|]. repeat split; try assumption.
      intros Hs. rewrite C4. by apply non_decreasing_take.
    + intros Hinv. destruct (new_Chunk_invalid rows Hinv) as [msg Hmsg].
      exists msg. by rewrite Hrun, Hmsg.
Qed.
End Query.

Lemma query_clamps_n_results_witness :
  let w := mem_world std_env three_chunks in
  calls (query (X:=std_env) (std_service 4 1) "a" 100 None None w).2
    = [] ++ [CallCount; CallQuery "a" (Z.max 1 (Z.min 100 3)) None]
  ∧ (1 ≤ Z.max 1 (Z.min 100 3))%Z
  ∧ (1 ≤ 3 → Z.max 1 (Z.min 100 3) ≤ 3)%Z
  ∧ (1 ≤ 100 ≤ 3 → Z.max 1 (Z.min 100 3) = 100)%Z
  ∧ (3 = 0 → Z.max 1 (Z.min 100 3) = 1)%Z
  ∧ (100 = 100 → 3 = 3 → Z.max 1 (Z.min 100 3) = 3)%Z
  ∧ (∀ r_ids r_docs r_mds r_dists ids0 docs0 mds0 dists0 d2,
       collection_query std_env (collection (std_service 4 1)) "a"
         (Z.max 1 (Z.min 100 3)) None (db w)
       = (Ok (ids0 :: r_ids, docs0 :: r_docs, mds0 :: r_mds, dists0 :: r_dists), d2) →
       (Forall (λ r, valid_row (X:=std_env) r = true) (zip4 ids0 docs0 mds0 dists0) →
        ∃ chunks,
          (query (X:=std_env) (std_service 4 1) "a" 100 None None w).1
            = Ok {| results := chunks |}
          ∧ length chunks
            = length ids0 `min` (length docs0 `min` (length mds0 `min` length dists0))
          ∧ id <$> chunks = take (length chunks) ids0
          ∧ (λ ch, Some (text ch)) <$> chunks = take (length chunks) docs0
          ∧ (λ ch, VDict (metadata ch)) <$> chunks = take (length chunks) mds0
          ∧ distance <$> chunks = take (length chunks) dists0
          ∧ (non_decreasing (dist_le std_env) dists0 →
             non_decreasing (dist_le std_env) (distance <$> chunks)))
       ∧ (Exists (λ r, valid_row (X:=std_env) r = false) (zip4 ids0 docs0 mds0 dists0) →
          ∃ msg, (query (X:=std_env) (std_service 4 1) "a" 100 None None w).1
                 = Raise (ValidationError msg))).
Proof.
  intros w.
  apply (query_clamps_n_results (X:=std_env) (std_service 4 1) "a" 100 None None w 3 (db w)).
  reflexivity.
Defined.

(** The example of C4 run on the in-memory store: 100 results asked of a
    collection of three chunks. *)
Example query_three_of_hundred :
  let r := query (X:=std_env) (std_service 4 1) "a" 100 None None
             (mem_world std_env three_chunks) in
  calls r.2 = [CallCount; CallQuery "a" 3 None]
  ∧ r.1 = Ok {| results :=
                  [Build_Chunk std_env "a" {[ "source" := "notes.txt" ]} 0 "i1";
                   Build_Chunk std_env "b" {[ "source" := "notes.txt" ]} 1 "i2";
                   Build_Chunk std_env "c" {[ "source" := "notes.txt" ]} 2 "i3"] |}.
Proof. vm_compute. split; reflexivity. Qed.

(** A stored chunk without a metadata mapping cannot be returned: building
    its [Chunk] raises. *)
Example query_invalid_row :
  (query (X:=std_env) (std_service 4 1) "a" 5 None None
     (mem_world std_env [("i1", Some "a", VNone)])).1
  = Raise (ValidationError "validation error for Chunk").
Proof. reflexivity. Qed.

Example query_empty_collection :
  calls (query (X:=std_env) (std_service 4 1) "a" 5 None None (mem_world std_env [])).2
  = [CallCount; CallQuery "a" 1 None].
Proof. vm_compute. reflexivity. Qed.

(** ** Construction *)

Section Construction.
Context {X : External}.
Implicit Types (self : ChromaDBService X) (w : World X).

Lemma init_config cfg recreate w svc :
  (__init__ cfg recreate w).1 = Ok svc → config svc = cfg.
Proof.
  unfold __init__, bind, lift, on_db, ret. simpl.
  destruct (OpenAIEmbeddingFunction X _ _) as [ef|]; [|done].
  destruct (recreate && path_exists X _ (db w)); simpl.
  - destruct (rmtree X _ (db w)) as [[[]|] d1]; [|done]. simpl.
    destruct (makedirs X _ d1) as [[[]|] d2]; [|done]. simpl.
    destruct (PersistentClient X _ d2) as [[cl|] d3]; [|done]. simpl.
    destruct (get_or_create_collection X cl _ ef _ d3) as [[co|] d4]; [|done].
    simpl. by intros [= <-].
  - destruct (PersistentClient X _ (db w)) as [[cl|] d3]; [|done]. simpl.
    destruct (get_or_create_collection X cl _ ef _ d3) as [[co|] d4]; [|done].
    simpl. by intros [= <-].
Qed.

(** [__init__] reads the API key, the model, the directory, the collection
    name and the metric; two configurations that agree on those are
    constructed alike. *)
Lemma init_store_settings_only cfg cfg' recreate w :
  same_store_settings cfg cfg' →
  __init__ cfg' recreate w
  = (match (__init__ cfg recreate w).1 with
     | Ok s => Ok (with_config s cfg')
     | Raise e => Raise e
     end, (__init__ cfg recreate w).2).
Proof.
  intros (Ha & Hd & Hn & Hm & Hdm).
  unfold __init__, bind, lift, on_db, ret. simpl.
  rewrite <- Ha, <- Hd, <- Hn, <- Hm, <- Hdm.
  destruct (OpenAIEmbeddingFunction X _ _) as [ef|]; [|done].
  destruct (recreate && path_exists X _ (db w)); simpl.
  - destruct (rmtree X _ (db w)) as [[[]|] d1]; [|done]. simpl.
    destruct (makedirs X _ d1) as [[[]|] d2]; [|done]. simpl.
    destruct (PersistentClient X _ d2) as [[cl|] d3]; [|done]. simpl.
    by destruct (get_or_create_collection X cl _ ef _ d3) as [[co|] d4].
  - destruct (PersistentClient X _ (db w)) as [[cl|] d3]; [|done]. simpl.
    by destruct (get_or_create_collection X cl _ ef _ d3) as [[co|] d4].
Qed.

(** C8 (amended).  [__init__] does not compare [overlap] with
    [chunk_size]: a configuration is constructed exactly as any other with
    the same store settings.  With [overlap = chunk_size > 0] the
    misconfiguration first shows in the chunker, which raises [ValueError]
    (zero slice step) on every record whose document encodes. *)
Theorem overlap_checked_by_chunker_only cfg recreate w svc file_json text enc document :
  (__init__ cfg recreate w).1 = Ok svc →
  db_chunk_overlap (data_config cfg) = db_chunk_size (data_config cfg) →
  (0 < db_chunk_size (data_config cfg))%Z →
  file_json !! "document" = Some (VStr text) →
  get_encoding X (embedding_model_tokenizer (data_config cfg)) = Ok enc →
  enc_encode enc text = Ok document →
  get_chunks_and_metadatas svc file_json = Raise (ValueError "slice step cannot be zero")
  ∧ (∀ cfg', same_store_settings cfg cfg' →
       __init__ cfg' recreate w = (Ok (with_config svc cfg'), (__init__ cfg recreate w).2)).
Proof.
  intros Hinit HO HC Hdoc Henc Htok. split.
  - apply init_config in Hinit.
    unfold get_chunks_and_metadatas, getitem, encode.
    rewrite Hinit, Hdoc, Henc. cbn [rbind]. rewrite Htok. cbn [rbind].
    unfold _yield_chunks. rewrite HO, Z.sub_diag.
    destruct (Z.to_nat (db_chunk_size (data_config cfg))) as [|k] eqn:E; [lia|].
    reflexivity.
  - intros cfg' Hsame.
    rewrite (init_store_settings_only cfg cfg' recreate w Hsame). by rewrite Hinit.
Qed.

(** C9 (amended).  [__init__] only stores the tokenizer name; the registry
    is consulted inside [encode], [decode] and [get_tokens].  With a name
    the registry rejects, construction is unaffected and each of the three
    raises the registry's error whenever it is called. *)
Theorem tokenizer_checked_at_call cfg recreate w svc e :
  (__init__ cfg recreate w).1 = Ok svc →
  get_encoding X (embedding_model_tokenizer (data_config cfg)) = Raise e →
  (∀ x, encode svc x = Raise e)
  ∧ (∀ x, decode svc x = Raise e)
  ∧ (∀ x, get_tokens svc x = Raise e)
  ∧ (∀ cfg', same_store_settings cfg cfg' →
       __init__ cfg' recreate w = (Ok (with_config svc cfg'), (__init__ cfg recreate w).2)).
Proof.
  intros Hinit Hreg. pose proof (init_config _ _ _ _ Hinit) as Hcfg.
  split; [|split; [|split]].
  - intros x. unfold encode. by rewrite Hcfg, Hreg.
  - intros x. unfold decode. by rewrite Hcfg, Hreg.
  - intros x. unfold get_tokens, encode. by rewrite Hcfg, Hreg.
  - intros cfg' Hsame.
    rewrite (init_store_settings_only cfg cfg' recreate w Hsame). by rewrite Hinit.
Qed.
End Construction.

Lemma overlap_checked_by_chunker_only_witness :
  get_chunks_and_metadatas (std_service 4 4) (record_of "abcdefgh" VNone)
    = Raise (ValueError "slice step cannot be zero")
  ∧ (∀ cfg', same_store_settings (test_config 4 4 "cl100k_base" []) cfg' →
       __init__ (X:=std_env) cfg' false (mem_world std_env [])
       = (Ok (with_config (std_service 4 4) cfg'),
          (__init__ (X:=std_env) (test_config 4 4 "cl100k_base" []) false
             (mem_world std_env [])).2)).
Proof.
  apply (overlap_checked_by_chunker_only (X:=std_env) (test_config 4 4 "cl100k_base" [])
           false (mem_world std_env []) (std_service 4 4)
           (record_of "abcdefgh" VNone) "abcdefgh" char_encoding abcdefgh).
  - reflexivity.
  - reflexivity.
  - simpl. lia.
  - vm_compute. reflexivity.
  - reflexivity.
  - reflexivity.
Defined.

(** C8 as stated fails: with [overlap = chunk_size = 4] the constructor
    returns a service, and the first error is the chunker's. *)
Lemma overlap_construction_counterexample :
  (__init__ (X:=std_env) (test_config 4 4 "cl100k_base" []) false
     (mem_world std_env [])).1 = Ok (std_service 4 4)
  ∧ get_chunks_and_metadatas (std_service 4 4) (record_of "abcdefgh" VNone)
    = Raise (ValueError "slice step cannot be zero").
Proof. split; vm_compute; reflexivity. Qed.

(** With [overlap > chunk_size] the stride is negative and short documents
    are chunked without any error at all. *)
Example overlap_above_chunk_size :
  (__init__ (X:=std_env) (test_config 2 4 "cl100k_base" []) false
     (mem_world std_env [])).1 = Ok (std_service 2 4)
  ∧ get_chunks_and_metadatas (std_service 2 4) (record_of "abcde" VNone)
    = Ok (["ab"], [VNone]).
Proof. split; vm_compute; reflexivity. Qed.

Lemma tokenizer_checked_at_call_witness :
  (∀ x, encode (typo_service) x
        = Raise (ValueError "Unknown encoding"))
  ∧ (∀ x, decode (typo_service) x
          = Raise (ValueError "Unknown encoding"))
  ∧ (∀ x, get_tokens (typo_service) x
          = Raise (ValueError "Unknown encoding"))
  ∧ (∀ cfg', same_store_settings typo_config cfg' →
       __init__ (X:=std_env) cfg' false (mem_world std_env [])
       = (Ok (with_config (typo_service) cfg'),
          (__init__ (X:=std_env) typo_config false
             (mem_world std_env [])).2)).
Proof.
  apply (tokenizer_checked_at_call (X:=std_env)
           typo_config false
           (mem_world std_env [])
           (typo_service)
           (ValueError "Unknown encoding")).
  - reflexivity.
  - reflexivity.
Defined.

(** C9 as stated fails: with a tokenizer name that the registry does not
    know the constructor returns a service; the error appears at the first
    [encode]. *)
Lemma tokenizer_construction_counterexample :
  (__init__ (X:=std_env) typo_config false
     (mem_world std_env [])).1
  = Ok (typo_service)
  ∧ get_encoding std_env "cl100k_bse" = Raise (ValueError "Unknown encoding")
  ∧ encode (typo_service) (VStr "hello")
    = Raise (ValueError "Unknown encoding").
Proof. repeat split; vm_compute; reflexivity. Qed.

(** * Further properties *)

(** ** Further properties of the chunker *)

Lemma sliding_windows_take_stride {A} (l : list A) c s :
  s ≤ c → take s <$> sliding_windows l c s = sliding_windows l s s.
Proof.
  intros Hs. unfold sliding_windows. rewrite <- list_fmap_compose.
  apply list_fmap_ext. intros _ j _. simpl.
  by rewrite take_take, Nat.min_l.
Qed.

Section ChunkerMore.
Context {X : External}.
Implicit Types self : ChromaDBService X.

(** No token is lost: on a valid configuration token [k] of the document
    sits in window [k / stride] at position [k mod stride]. *)
Theorem chunker_covers_document self file_json text md enc document :
  let C := db_chunk_size (data_config (config self)) in
  let O := db_chunk_overlap (data_config (config self)) in
  let s := Z.to_nat (C - O) in
  (0 ≤ O < C)%Z →
  file_json !! "document" = Some (VStr text) →
  file_json !! "metadata" = Some md →
  get_encoding X (embedding_model_tokenizer (data_config (config self))) = Ok enc →
  enc_encode enc text = Ok document →
  ∃ windows : list (list token),
    get_chunks_and_metadatas self file_json
      = Ok (enc_decode enc <$> windows, replicate (length windows) md)
    ∧ ∀ k t, document !! k = Some t →
        ∃ w, windows !! (k / s) = Some w ∧ w !! (k mod s) = Some t.
Proof.
  intros C O s HO Hdoc Hmd Henc Htok.
  assert (0 < s) as Hs by (unfold s; lia).
  assert (s ≤ Z.to_nat C) as Hsc by (unfold s; lia).
  exists (sliding_windows document (Z.to_nat C) s). split.
  - rewrite sliding_windows_length.
    by apply (get_chunks_valid self file_json text md enc document).
  - intros k t Hk. pose proof (lookup_lt_Some _ _ _ Hk) as HkL.
    pose proof (Nat.div_mod_eq k s) as Hdm.
    pose proof (Nat.mod_upper_bound k s ltac:(lia)) as Hm.
    exists (take (Z.to_nat C) (drop (k / s * s) document)). split.
    + unfold sliding_windows. rewrite list_lookup_fmap, lookup_seq_lt; [done|].
      apply window_count_lt; [done|]. nia.
    + rewrite lookup_take_lt by lia.
      rewrite lookup_drop, <- Hk. f_equal. lia.
Qed.

(** The windows reassemble to the document: the first
    [chunk_size - overlap] tokens of every window, concatenated in order,
    are the token sequence.  With [overlap = 0] the windows themselves
    partition the document. *)
Theorem chunker_windows_reassemble self file_json text md enc document :
  let C := db_chunk_size (data_config (config self)) in
  let O := db_chunk_overlap (data_config (config self)) in
  (0 ≤ O < C)%Z →
  file_json !! "document" = Some (VStr text) →
  file_json !! "metadata" = Some md →
  get_encoding X (embedding_model_tokenizer (data_config (config self))) = Ok enc →
  enc_encode enc text = Ok document →
  ∃ windows : list (list token),
    get_chunks_and_metadatas self file_json
      = Ok (enc_decode enc <$> windows, replicate (length windows) md)
    ∧ concat (take (Z.to_nat (C - O)) <$> windows) = document
    ∧ (O = 0%Z → concat windows = document).
Proof.
  intros C O HO Hdoc Hmd Henc Htok.
  exists (sliding_windows document (Z.to_nat C) (Z.to_nat (C - O))).
  split; [|split].
  - rewrite sliding_windows_length.
    by apply (get_chunks_valid self file_json text md enc document).
  - rewrite sliding_windows_take_stride by lia.
    apply sliding_windows_concat. lia.
  - intros HO0. rewrite HO0, Z.sub_0_r. apply sliding_windows_concat. lia.
Qed.

(** Whatever the configuration, a call that returns gives one metadata per
    chunk, each the record's [metadata] value: its two lists can be handed
    to [add_documents] as they are. *)
Theorem chunker_output_aligned self file_json chunks mds :
  get_chunks_and_metadatas self file_json = Ok (chunks, mds) →
  length mds = length chunks
  ∧ ∀ m, m ∈ mds → file_json !! "metadata" = Some m.
Proof.
  intros H. apply get_chunks_metadata in H as (md & Hmd & ->).
  split; [by rewrite length_replicate|].
  by intros m [-> _]%elem_of_replicate.
Qed.

(** The order in which a malformed record fails.  A record without
    [document] raises [KeyError] for that key before the tokenizer or the
    chunk sizes are looked at; with a document, an unknown tokenizer raises
    the registry's error; a record that chunks but has no [metadata] raises
    [KeyError] for [metadata] although its chunk texts were computed. *)
Theorem chunker_error_order self file_json :
  (file_json !! "document" = None →
     get_chunks_and_metadatas self file_json = Raise (KeyError "document"))
  ∧ (∀ v e, file_json !! "document" = Some v →
       get_encoding X (embedding_model_tokenizer (data_config (config self))) = Raise e →
       get_chunks_and_metadatas self file_json = Raise e)
  ∧ (∀ text enc document,
       (0 ≤ db_chunk_overlap (data_config (config self))
          < db_chunk_size (data_config (config self)))%Z →
       file_json !! "document" = Some (VStr text) →
       get_encoding X (embedding_model_tokenizer (data_config (config self))) = Ok enc →
       enc_encode enc text = Ok document →
       file_json !! "metadata" = None →
       get_chunks_and_metadatas self file_json = Raise (KeyError "metadata")).
Proof.
  split; [|split].
  - intros H. unfold get_chunks_and_metadatas, getitem. by rewrite H.
  - intros v e Hv He. unfold get_chunks_and_metadatas, getitem, encode.
    by rewrite Hv, He.
  - intros text enc document HO Hdoc Henc Htok Hmd.
    unfold get_chunks_and_metadatas, getitem, encode.
    rewrite Hdoc, Hmd, Henc. cbn [rbind]. rewrite Htok. cbn [rbind].
    rewrite yield_chunks_valid by done. cbn [rbind].
    rewrite (rmapM_fmap_ok _ _ (enc_decode enc)); [done|].
    intros w _. unfold decode. rewrite Henc. cbn [rbind].
    by rewrite tokens_of_Some.
Qed.

End ChunkerMore.

(** ** The chunker with a negative stride *)

Section NegativeStride.
Context {A : Type}.
Implicit Types l : list A.

(** With a step of [-k] and every start index below [k], each slice
    [l[i::-k]] is the single element at [min i (len l - 1)]. *)
Lemma slice_from_step_neg_single l i k x :
  0 < k → l !! (i `min` (length l - 1)) = Some x → i `min` (length l - 1) < k →
  slice_from_step l i (- Z.of_nat k) = Ok [x].
Proof.
  intros Hk Hx Hlt. unfold slice_from_step.
  destruct (Z.eqb_spec (- Z.of_nat k) 0) as [|_]; [lia|].
  destruct (Z.ltb_spec 0 (- Z.of_nat k)) as [|_]; [lia|].
  rewrite Z.opp_involutive, Nat2Z.id.
  destruct (Nat.eqb_spec (length l) 0) as [H0|_].
  { apply lookup_lt_Some in Hx. lia. }
  rewrite Nat.div_small by done. simpl. rewrite Nat.sub_0_r. by rewrite Hx.
Qed.

Lemma clamped_lookups l c x :
  last l = Some x →
  (λ i, l !! (i `min` (length l - 1))) <$> seq 0 c
  = Some <$> (take c l ++ replicate (c - length l) x).
Proof.
  intros Hlast. rewrite last_lookup in Hlast.
  apply list_eq. intros i. rewrite !list_lookup_fmap.
  destruct (decide (i < c)) as [Hi|Hi].
  - rewrite lookup_seq_lt by done. simpl.
    destruct (decide (i < length l)) as [HiL|HiL].
    + rewrite Nat.min_l by lia.
      rewrite lookup_app_l by (rewrite length_take; lia).
      rewrite lookup_take_lt by done.
      destruct (lookup_lt_is_Some_2 l i HiL) as [y ->]. done.
    + rewrite Nat.min_r by lia.
      rewrite lookup_app_r by (rewrite length_take; lia).
      rewrite length_take.
      rewrite lookup_replicate_2 by lia.
      replace (length l - 1) with (pred (length l)) by lia. by rewrite Hlast.
  - rewrite lookup_seq_ge by lia. simpl.
    rewrite lookup_ge_None_2; [done|].
    rewrite length_app, length_take, length_replicate. lia.
Qed.
End NegativeStride.

Section ChunkerNegativeStride.
Context {X : External}.
Implicit Types self : ChromaDBService X.

(** With [overlap > chunk_size > 0] the slices run backwards.  When the
    excess [overlap - chunk_size] is larger than every start index
    ([min(chunk_size, L) - 1]), a non-empty document gives exactly one
    chunk and no error: its first [chunk_size] tokens, padded to
    [chunk_size] tokens with copies of its last token when it is
    shorter. *)
Theorem chunker_overlap_above_chunk_size self file_json text md enc document x :
  let C := db_chunk_size (data_config (config self)) in
  let O := db_chunk_overlap (data_config (config self)) in
  (0 < C < O)%Z →
  (Z.of_nat (length document) `min` C - 1 < O - C)%Z →
  file_json !! "document" = Some (VStr text) →
  file_json !! "metadata" = Some md →
  get_encoding X (embedding_model_tokenizer (data_config (config self))) = Ok enc →
  enc_encode enc text = Ok document →
  last document = Some x →
  get_chunks_and_metadatas self file_json
  = Ok ([enc_decode enc (take (Z.to_nat C) document
                         ++ replicate (Z.to_nat C - length document) x)], [md]).
Proof.
  intros C O HCO Hk Hdoc Hmd Henc Htok Hlast.
  assert (0 < length document) as HL.
  { destruct document; [done|simpl; lia]. }
  unfold get_chunks_and_metadatas, getitem, encode.
  rewrite Hdoc, Hmd, Henc. cbn [rbind]. rewrite Htok. cbn [rbind]. fold C O.
  set (c := Z.to_nat C). set (k := Z.to_nat (O - C)).
  assert (∀ i, i < c → ∃ y, document !! (i `min` (length document - 1)) = Some y
                            ∧ i `min` (length document - 1) < k) as Hstart.
  { intros i Hi. destruct (lookup_lt_is_Some_2 document (i `min` (length document - 1)))
      as [y Hy]; [lia|]. exists y. split; [done|]. unfold k, c in *. lia. }
  assert (_yield_chunks document C O
          = Ok [Some <$> (take c document ++ replicate (c - length document) x)]) as ->.
  { unfold _yield_chunks. fold c. replace (C - O)%Z with (- Z.of_nat k)%Z by (unfold k; lia).
    assert (rmapM (λ i, slice_from_step document i (- Z.of_nat k)) (seq 0 c)
            = Ok ((λ i, default [] ((λ y, [y]) <$> document !! (i `min` (length document - 1))))
                    <$> seq 0 c)) as ->.
    { rewrite <- (list_fmap_id (seq 0 c)) at 1. apply rmapM_fmap_ok.
      intros i [_ Hi]%elem_of_seq. destruct (Hstart i) as (y & Hy & Hlt); [lia|].
      simpl. rewrite Hy. simpl. apply slice_from_step_neg_single; [unfold k; lia|done..]. }
    cbn [rbind]. f_equal. unfold zip_longest.
    set (sl := λ i, default [] ((λ y, [y]) <$> document !! (i `min` (length document - 1)))).
    assert (max_list (map length (sl <$> seq 0 c)) = 1) as ->.
    { change (map length (sl <$> seq 0 c)) with (length <$> (sl <$> seq 0 c)).
      apply max_list_intro.
      - apply Forall_fmap, Forall_fmap, Forall_forall. intros i [_ Hi]%elem_of_seq.
        destruct (Hstart i) as (y & Hy & _); [lia|]. unfold sl. simpl. by rewrite Hy.
      - apply list_elem_of_fmap. exists (sl 0). split.
        + destruct (Hstart 0) as (y & Hy & _); [unfold c; lia|]. unfold sl. by rewrite Hy.
        + apply list_elem_of_fmap. exists 0. split; [done|].
          apply elem_of_seq. unfold c. lia. }
    cbn [seq map]. f_equal.
    assert (map (λ l : list token, l !! 0) (sl <$> seq 0 c)
            = (λ i, document !! (i `min` (length document - 1))) <$> seq 0 c) as ->.
    { change (map ?f ?l) with (f <$> l). rewrite <- list_fmap_compose.
      apply list_fmap_ext. intros j i [-> Hj]%lookup_seq. simpl.
      destruct (Hstart j) as (y & Hy & _); [done|]. unfold sl. by rewrite Hy. }
    rewrite (clamped_lookups document c x Hlast).
    assert (∃ z, last (Some <$> (take c document ++ replicate (c - length document) x))
                 = Some (Some z)) as [z ->]; [|done].
    rewrite fmap_last.
    destruct (last (take c document ++ replicate (c - length document) x)) as [z|] eqn:E;
      [by exists z|].
    apply last_None in E. apply app_eq_nil in E as [E _].
    destruct document; [done|]. unfold c in E.
    destruct (Z.to_nat C) eqn:EC; [lia|done]. }
  cbn [rbind rmapM]. unfold decode. rewrite Henc. cbn [rbind].
  by rewrite tokens_of_Some.
Qed.
End ChunkerNegativeStride.


(** ** Further properties of [add_documents] *)

Lemma zip3_app {A B C} (a1 a2 : list A) (b1 b2 : list B) (c1 c2 : list C) :
  length a1 = length b1 → length a1 = length c1 →
  zip3 (a1 ++ a2) (b1 ++ b2) (c1 ++ c2) = zip3 a1 b1 c1 ++ zip3 a2 b2 c2.
Proof.
  revert b1 c1. induction a1 as [|x a1 IH]; intros [|y b1] [|z c1]; try done.
  intros [= Hb] [= Hc]. simpl. f_equal. by apply IH.
Qed.

Lemma sliding_windows_step {A} (l : list A) n :
  0 < n → l ≠ [] →
  sliding_windows l n n = take n l :: sliding_windows (drop n l) n n.
Proof.
  intros Hn Hl. rewrite <- (batched_aux_windows (S (length l))) by lia.
  destruct l as [|x l]; [done|]. cbn [batched_aux]. f_equal.
  apply batched_aux_windows; [done|]. rewrite length_drop. simpl. lia.
Qed.

Lemma sliding_windows_app {A} (l1 l2 : list A) n k :
  0 < n → length l1 = k * n →
  sliding_windows (l1 ++ l2) n n = sliding_windows l1 n n ++ sliding_windows l2 n n
  ∧ length (sliding_windows l1 n n) = k.
Proof.
  intros Hn. revert l1. induction k as [|k IH]; intros l1 Hl.
  - destruct l1; [|done]. by rewrite sliding_windows_nil.
  - assert (l1 ≠ []) as Hne by (intros ->; simpl in Hl; lia).
    assert (n ≤ length l1) as Hle by lia.
    rewrite (sliding_windows_step (l1 ++ l2)) by (try done; by destruct l1).
    rewrite (sliding_windows_step l1) by done.
    rewrite take_app_le, drop_app_le by done.
    destruct (IH (drop n l1)) as [-> Hk]; [rewrite length_drop; lia|].
    split; [done|]. simpl. by rewrite Hk.
Qed.

Section AddDocumentsMore.
Context {X : External}.
Implicit Types (self : ChromaDBService X) (w : World X).

(** An empty document list makes no store call and draws no UUID; the
    call returns the ids it was given ([[]] when none were), whatever
    metadatas and ids were passed. *)
Theorem add_documents_no_documents self metadatas ids w :
  add_documents self [] metadatas ids w = (Ok (default [] ids), w).
Proof.
  unfold add_documents, add_documents_batched, bind, ret, lift, raise.
  destruct ids as [l|]; simpl; by destruct w.
Qed.

(** There is no rollback.  When the batches before batch [b] are accepted
    one after the other and the store raises on [b], [add_documents]
    raises that exception; the store is left as the accepted batches and
    the failed call made it, and the batches after [b] are never
    submitted. *)
Theorem add_documents_no_rollback B self documents metadatas ids w pre b post d1 d2 e :
  0 < B →
  existsb is_None documents = false →
  submitted_batches B documents (resolved_metadatas documents metadatas)
    (resolved_ids documents ids w) = pre ++ b :: post →
  submit_all (collection self) pre (db w) = (Ok (), d1) →
  collection_add X (collection self) b d1 = (Raise e, d2) →
  (add_documents_batched B self documents metadatas ids w).1 = Raise e
  ∧ db (add_documents_batched B self documents metadatas ids w).2 = d2
  ∧ calls (add_documents_batched B self documents metadatas ids w).2
    = calls w ++ (CallAdd <$> pre) ++ [CallAdd b].
Proof.
  intros HB Hnone Hbs Hpre Hb.
  rewrite (add_documents_run B self documents metadatas ids w HB Hnone).
  cbn [fst snd]. rewrite Hbs, for_each_app.
  rewrite (for_each_submitted self pre (after_ids documents ids w) d1)
    by (by destruct ids).
  rewrite (for_each_raises self b post _ e d2) by done.
  simpl. rewrite <- app_assoc. by destruct ids.
Qed.

(** Up to [_BATCH_SIZE] documents go to the store in a single [add] call
    that carries the three lists whole. *)
Theorem add_documents_single_call self documents mds ids w :
  0 < length documents ≤ _BATCH_SIZE →
  length mds = length documents →
  length ids = length documents →
  existsb is_None documents = false →
  let b := {| b_documents := documents; b_metadatas := mds; b_ids := ids |} in
  calls (add_documents self documents (Some mds) (Some ids) w).2 = calls w ++ [CallAdd b]
  ∧ db (add_documents self documents (Some mds) (Some ids) w).2
    = (collection_add X (collection self) b (db w)).2
  ∧ (add_documents self documents (Some mds) (Some ids) w).1
    = match (collection_add X (collection self) b (db w)).1 with
      | Ok _ => Ok ids
      | Raise e => Raise e
      end.
Proof.
  intros [HN HB] Hm Hi Hnone b. unfold add_documents.
  rewrite (add_documents_run _BATCH_SIZE self documents (Some mds) (Some ids) w)
    by (done || (unfold _BATCH_SIZE; lia)).
  cbn [resolved_metadatas resolved_ids after_ids fst snd].
  rewrite submitted_batches_seq, Hm, Hi, !Nat.min_id.
  assert (window_count (length documents) _BATCH_SIZE = 1) as ->.
  { unfold window_count.
    replace (length documents + _BATCH_SIZE - 1)
      with (length documents - 1 + 1 * _BATCH_SIZE) by lia.
    rewrite Nat.div_add by done. rewrite Nat.div_small; lia. }
  cbn [seq fmap list_fmap]. unfold nth_batch. rewrite Nat.mul_0_l, !drop_0.
  rewrite !take_ge by lia. fold b.
  cbn [for_each]. unfold bind, collection_add_call, bind, log_call, on_db, ret. simpl.
  by destruct (collection_add X (collection self) b (db w)) as [[[]|e] d].
Qed.

(** Adding in two steps or in one.  When the first part of the lists ends
    on a batch boundary ([k * B] elements), one [add_documents] call on the
    concatenated lists does exactly what two calls, one per part, do in
    sequence: the same store calls in the same order, with the same
    outcome. *)
Theorem add_documents_concat B self k d1 d2 m1 m2 i1 i2 w :
  0 < B →
  length d1 = k * B → length m1 = k * B → length i1 = k * B →
  existsb is_None d1 = false → existsb is_None d2 = false →
  add_documents_batched B self (d1 ++ d2) (Some (m1 ++ m2)) (Some (i1 ++ i2)) w
  = (add_documents_batched B self d1 (Some m1) (Some i1) ;;;
     ids2 <- add_documents_batched B self d2 (Some m2) (Some i2) ;;
     ret (i1 ++ ids2)) w.
Proof.
  intros HB Hd Hm Hi Hn1 Hn2.
  rewrite (add_documents_run B self (d1 ++ d2) _ _ w HB)
    by (rewrite existsb_app, Hn1, Hn2; done).
  cbn [resolved_metadatas resolved_ids after_ids fst snd].
  unfold bind at 1. rewrite (add_documents_run B self d1 _ _ w HB Hn1).
  cbn [resolved_metadatas resolved_ids after_ids fst snd].
  unfold submitted_batches.
  destruct (sliding_windows_app d1 d2 B k HB Hd) as [-> Hk1].
  destruct (sliding_windows_app m1 m2 B k HB Hm) as [-> Hk2].
  destruct (sliding_windows_app i1 i2 B k HB Hi) as [-> Hk3].
  rewrite zip3_app, fmap_app, for_each_app by congruence.
  destruct (for_each _ (collection_add_call self) w) as [[[]|e] w1]; [|done].
  cbn [fst snd]. unfold bind at 1.
  rewrite (add_documents_run B self d2 _ _ w1 HB Hn2).
  cbn [resolved_metadatas resolved_ids after_ids fst snd].
  unfold submitted_batches.
  by destruct (for_each _ (collection_add_call self) w1) as [[[]|e] w2].
Qed.
End AddDocumentsMore.


(** ** Further properties of ingestion, query and construction *)

Lemma rmapM_first_failure {A B} (f : A → Result B) pre x post e :
  Forall (λ a, ∃ b, f a = Ok b) pre → f x = Raise e →
  rmapM f (pre ++ x :: post) = Raise e.
Proof.
  intros Hpre Hx. induction Hpre as [|a pre [b Hb] _ IH]; simpl.
  - by rewrite Hx.
  - by rewrite Hb, IH.
Qed.

Section IngestionMore.
Context {X : External}.
Implicit Types (self : ChromaDBService X) (w : World X).

Lemma chunk_records_all self data (per_record : list (list string * list value)) :
  Forall2 (λ d cm, get_chunks_and_metadatas self d = Ok cm) data per_record →
  chunk_records self data = Ok (concat (fst <$> per_record), concat (snd <$> per_record)).
Proof.
  induction 1 as [|d [ch md] data per_record Hd _ IH]; [done|].
  cbn [chunk_records]. rewrite Hd, IH. done.
Qed.

(** When every file loads and every record chunks, [initialize_db] is one
    [add_documents] call on the chunks of all records in file order, each
    with its record's metadata; with no data files it returns [[]] and
    touches nothing. *)
Theorem initialize_db_ingests_in_order self w :
  (∀ data per_record,
     rmapM (load_json X) (data_files (config self)) = Ok data →
     Forall2 (λ d cm, get_chunks_and_metadatas self d = Ok cm) data per_record →
     initialize_db self w
     = add_documents self (Some <$> concat (fst <$> per_record))
         (Some (concat (snd <$> per_record))) None w)
  ∧ (data_files (config self) = [] → initialize_db self w = (Ok [], w)).
Proof.
  split.
  - intros data per_record Hload Hall. unfold initialize_db, bind, lift.
    rewrite Hload, (chunk_records_all self data per_record Hall). done.
  - intros Hnil. unfold initialize_db, bind, lift. rewrite Hnil. simpl.
    apply add_documents_no_documents.
Qed.

(** All files are read before any record is chunked: when a file fails to
    load, that error comes out unwrapped and nothing else happens, also
    when an earlier file holds a record that would fail to chunk. *)
Theorem initialize_db_load_failure self w pre f post e :
  data_files (config self) = pre ++ f :: post →
  Forall (λ p, ∃ j, load_json X p = Ok j) pre →
  load_json X f = Raise e →
  initialize_db self w = (Raise e, w).
Proof.
  intros Hfiles Hpre Hf. unfold initialize_db, bind, lift.
  by rewrite Hfiles, (rmapM_first_failure _ pre f post e Hpre Hf).
Qed.

Lemma chunk_docs_first_failure self pre d post e :
  Forall (λ r, ∃ cm, get_chunks_and_metadatas self r = Ok cm) pre →
  get_chunks_and_metadatas self d = Raise e →
  chunk_docs self (pre ++ d :: post) = Raise e.
Proof.
  intros Hpre Hd. induction Hpre as [|r pre [cm Hr] _ IH]; simpl.
  - by rewrite Hd.
  - by rewrite Hr, IH.
Qed.

(** [add_search_results] has no handler around the chunker: when chunking
    a surviving item raises, that exception comes out as it is (not
    wrapped as in [initialize_db]) and the store is not called. *)
Theorem add_search_results_chunk_failure self search_results w pre sr post e :
  List.filter (λ sr, is_not_None (sr_content sr)) search_results = pre ++ sr :: post →
  Forall (λ s, ∃ cm, get_chunks_and_metadatas self (search_result_doc s) = Ok cm) pre →
  get_chunks_and_metadatas self (search_result_doc sr) = Raise e →
  add_search_results self search_results w = (Raise e, w).
Proof.
  intros Hsurv Hpre Hsr. unfold add_search_results. rewrite Hsurv.
  rewrite length_map, length_app. simpl.
  replace (0 <? length pre + S (length post)) with true
    by (symmetry; apply Nat.ltb_lt; lia).
  unfold bind, ret, lift. rewrite map_app. simpl.
  rewrite (chunk_docs_first_failure self (map search_result_doc pre)
             (search_result_doc sr) (map search_result_doc post) e); [done| |done].
  clear -Hpre. induction Hpre; simpl; constructor; auto.
Qed.

Lemma chunk_docs_nothing self docs :
  Forall (λ d, get_chunks_and_metadatas self d = Ok ([], [])) docs →
  chunk_docs self docs = Ok ([], []).
Proof.
  induction 1 as [|d docs Hd _ IH]; [done|]. simpl. by rewrite Hd, IH.
Qed.

(** The assertion of [add_search_results] counts items, not chunks.  Items
    whose content is present but encodes to no tokens (the empty page)
    pass it, produce no chunk, and the call returns [[]] without a store
    call and without raising. *)
Theorem add_search_results_empty_pages self search_results w enc :
  (0 ≤ db_chunk_overlap (data_config (config self))
     < db_chunk_size (data_config (config self)))%Z →
  get_encoding X (embedding_model_tokenizer (data_config (config self))) = Ok enc →
  Forall (λ sr, ∀ c, sr_content sr = Some c → enc_encode enc c = Ok []) search_results →
  Exists (λ sr, is_not_None (sr_content sr) = true) search_results →
  add_search_results self search_results w = (Ok [], w).
Proof.
  intros HO Henc Hall Hex. unfold add_search_results.
  set (survivors := List.filter _ search_results).
  assert (survivors ≠ []) as Hne.
  { apply Exists_exists in Hex as (sr & Hin & Hsr). intros Hnil.
    assert (In sr survivors) as Hs by (apply filter_In; split; [by apply list_elem_of_In|done]).
    by rewrite Hnil in Hs. }
  assert (Forall (λ d, get_chunks_and_metadatas self d = Ok ([], []))
            (map search_result_doc survivors)) as Hch.
  { apply Forall_forall. intros d [sr [<- Hin]]%list_elem_of_In%in_map_iff.
    apply filter_In in Hin as [Hin Hsr].
    destruct (sr_content sr) as [c|] eqn:Ec; [|done].
    rewrite Forall_forall in Hall.
    pose proof (Hall sr (proj2 (list_elem_of_In _ _) Hin) c Ec) as Htok.
    rewrite (get_chunks_valid self (search_result_doc sr) c
               (VDict {[ "title" := title_or_empty (sr_title sr); "url" := sr_url sr ]})
               enc [] HO); [| | |done..].
    - rewrite sliding_windows_nil. simpl.
      destruct (window_count_spec 0 (Z.to_nat
                  (db_chunk_size (data_config (config self))
                   - db_chunk_overlap (data_config (config self)))))
        as (_ & _ & ->); [lia|done|done].
    - unfold search_result_doc. by rewrite lookup_insert_eq, Ec.
    - unfold search_result_doc. by rewrite lookup_insert_ne, lookup_singleton_eq. }
  rewrite length_map. destruct survivors as [|s0 survivors']; [done|].
  unfold bind, ret, lift. cbn [length Nat.ltb Nat.leb].
  rewrite (chunk_docs_nothing self _ Hch). simpl.
  apply add_documents_no_documents.
Qed.
End IngestionMore.

Section QueryConstructionMore.
Context {X : External}.
Implicit Types (self : ChromaDBService X) (w : World X).

(** How [query] fails.  When the count call raises, that exception comes
    out and no search is issued.  When the search raises, its exception
    comes out.  When the store answers with an empty outer list of ids,
    the [[0]] index raises [IndexError].  The [ids] argument is never
    used. *)
Theorem query_failures self query_text n_results where_ ids w :
  (∀ e d1, collection_count X (collection self) (db w) = (Raise e, d1) →
     query self query_text n_results where_ ids w
     = (Raise e, {| db := d1; calls := calls w ++ [CallCount];
                    uuids_drawn := uuids_drawn w |}))
  ∧ (∀ count d1 e d2,
       collection_count X (collection self) (db w) = (Ok count, d1) →
       collection_query X (collection self) query_text
         (Z.max 1 (Z.min n_results count)) where_ d1 = (Raise e, d2) →
       (query self query_text n_results where_ ids w).1 = Raise e
       ∧ db (query self query_text n_results where_ ids w).2 = d2)
  ∧ (∀ count d1 r_docs r_mds r_dists d2,
       collection_count X (collection self) (db w) = (Ok count, d1) →
       collection_query X (collection self) query_text
         (Z.max 1 (Z.min n_results count)) where_ d1
       = (Ok ([], r_docs, r_mds, r_dists), d2) →
       (query self query_text n_results where_ ids w).1
       = Raise (IndexError "list index out of range"))
  ∧ query self query_text n_results where_ ids w
    = query self query_text n_results where_ None w.
Proof.
  split; [|split; [|split]]; [| | |done].
  - intros e d1 Hc. unfold query, get_count, bind, log_call, on_db. simpl.
    by rewrite Hc.
  - intros count d1 e d2 Hc Hq. unfold query, get_count, bind, log_call, on_db. simpl.
    rewrite Hc. simpl. by rewrite Hq.
  - intros count d1 r_docs r_mds r_dists d2 Hc Hq.
    unfold query, get_count, bind, log_call, on_db, lift. simpl.
    rewrite Hc. simpl. by rewrite Hq.
Qed.

(** What construction touches.  It never calls the collection and draws no
    UUID.  When the embedding function cannot be built nothing else
    happens: the persist directory is not wiped even with
    [recreate_collection].  The directory is removed and recreated only
    when [recreate_collection] is set and the directory exists; otherwise
    the client opens the storage as it is. *)
Theorem init_touches_storage_only cfg recreate w :
  calls (__init__ cfg recreate w).2 = calls w
  ∧ uuids_drawn (__init__ cfg recreate w).2 = uuids_drawn w
  ∧ (∀ e, OpenAIEmbeddingFunction X (openai_key (api_config cfg))
            (embedding_model (data_config cfg)) = Raise e →
       __init__ cfg recreate w = (Raise e, w))
  ∧ (∀ ef, OpenAIEmbeddingFunction X (openai_key (api_config cfg))
             (embedding_model (data_config cfg)) = Ok ef →
       recreate && path_exists X (db_directory (data_config cfg)) (db w) = false →
       __init__ cfg recreate w = __init__ cfg false w
       ∧ ∀ cl d1 co d2,
           PersistentClient X (db_directory (data_config cfg)) (db w) = (Ok cl, d1) →
           get_or_create_collection X cl (db_name (data_config cfg)) ef
             (distance_metric (data_config cfg)) d1 = (Ok co, d2) →
           (__init__ cfg recreate w).1
           = Ok {| config := cfg; embedding_function := ef; client := cl;
                   collection := co |}
           ∧ db (__init__ cfg recreate w).2 = d2).
Proof.
  split; [|split; [|split]].
  - unfold __init__, bind, lift, on_db, ret. simpl.
    destruct (OpenAIEmbeddingFunction X _ _) as [ef|]; [|done].
    destruct (recreate && path_exists X _ (db w)); simpl.
    + destruct (rmtree X _ (db w)) as [[[]|] d1]; [|done]. simpl.
      destruct (makedirs X _ d1) as [[[]|] d2]; [|done]. simpl.
      destruct (PersistentClient X _ d2) as [[cl|] d3]; [|done]. simpl.
      by destruct (get_or_create_collection X cl _ ef _ d3) as [[co|] d4].
    + destruct (PersistentClient X _ (db w)) as [[cl|] d3]; [|done]. simpl.
      by destruct (get_or_create_collection X cl _ ef _ d3) as [[co|] d4].
  - unfold __init__, bind, lift, on_db, ret. simpl.
    destruct (OpenAIEmbeddingFunction X _ _) as [ef|]; [|done].
    destruct (recreate && path_exists X _ (db w)); simpl.
    + destruct (rmtree X _ (db w)) as [[[]|] d1]; [|done]. simpl.
      destruct (makedirs X _ d1) as [[[]|] d2]; [|done]. simpl.
      destruct (PersistentClient X _ d2) as [[cl|] d3]; [|done]. simpl.
      by destruct (get_or_create_collection X cl _ ef _ d3) as [[co|] d4].
    + destruct (PersistentClient X _ (db w)) as [[cl|] d3]; [|done]. simpl.
      by destruct (get_or_create_collection X cl _ ef _ d3) as [[co|] d4].
  - intros e He. unfold __init__, bind, lift. by rewrite He.
  - intros ef Hef Hno. split.
    + unfold __init__, bind, lift, on_db, ret. simpl. by rewrite Hef, Hno.
    + intros cl d1 co d2 Hcl Hco.
      unfold __init__, bind, lift, on_db, ret. simpl. rewrite Hef, Hno. simpl.
      rewrite Hcl. simpl. by rewrite Hco.
Qed.

(** With [recreate_collection] and an existing directory the wipe comes
    first: when the client then fails to open the recreated directory,
    construction raises and the old contents are gone. *)
Theorem init_wipes_before_attach cfg w ef d1 d2 e d3 :
  OpenAIEmbeddingFunction X (openai_key (api_config cfg))
    (embedding_model (data_config cfg)) = Ok ef →
  path_exists X (db_directory (data_config cfg)) (db w) = true →
  rmtree X (db_directory (data_config cfg)) (db w) = (Ok (), d1) →
  makedirs X (db_directory (data_config cfg)) d1 = (Ok (), d2) →
  PersistentClient X (db_directory (data_config cfg)) d2 = (Raise e, d3) →
  (__init__ cfg true w).1 = Raise e ∧ db (__init__ cfg true w).2 = d3.
Proof.
  intros Hef Hex Hrm Hmk Hcl.
  unfold __init__, bind, lift, on_db, ret. simpl.
  rewrite Hef, Hex. simpl. rewrite Hrm. simpl. rewrite Hmk. simpl. by rewrite Hcl.
Qed.

(** Start-up through [Controller]: the collection is always recreated, and
    a record that fails to chunk aborts the start after the wipe: the
    controller is not built and the store is what construction left,
    without any document. *)
Theorem controller_start_aborts_on_bad_record {H : Type}
    (new_agents : Configurator → Result H) cfg w svc w1 pre d post e :
  __init__ cfg true w = (Ok svc, w1) →
  rmapM (load_json X) (data_files cfg) = Ok (pre ++ d :: post) →
  Forall (λ r, ∃ cm, get_chunks_and_metadatas svc r = Ok cm) pre →
  get_chunks_and_metadatas svc d = Raise e →
  (∃ err, (Controller_init new_agents cfg w).1 = Raise err)
  ∧ (Controller_init new_agents cfg w).2 = w1.
Proof.
  intros Hinit Hload Hpre Hd.
  assert (config svc = cfg) as Hcfg.
  { apply (init_config cfg true w). by rewrite Hinit. }
  assert (∃ err, Controller_init new_agents cfg w = (Raise err, w1)) as [err ->];
    [|split; [by exists err|done]].
  unfold Controller_init, bind. rewrite Hinit.
  unfold initialize_db, bind, lift.
  rewrite Hcfg, Hload, (chunk_records_first_failure svc pre d post e Hpre Hd).
  destruct (d !! "metadata"); simpl; eexists; reflexivity.
Qed.
End QueryConstructionMore.


Lemma chunker_covers_document_witness :
  ∃ windows : list (list token),
    get_chunks_and_metadatas (std_service 4 1) (record_of "abcdefgh" VNone)
      = Ok (enc_decode char_encoding <$> windows, replicate (length windows) VNone)
    ∧ ∀ k t, abcdefgh !! k = Some t →
        ∃ w, windows !! (k / 3) = Some w ∧ w !! (k mod 3) = Some t.
Proof.
  apply (chunker_covers_document (std_service 4 1) (record_of "abcdefgh" VNone)
           "abcdefgh" VNone char_encoding abcdefgh);
    [simpl; lia | vm_compute; reflexivity | vm_compute; reflexivity
    | reflexivity | reflexivity].
Defined.

Lemma chunker_windows_reassemble_witness :
  ∃ windows : list (list token),
    get_chunks_and_metadatas (std_service 4 1) (record_of "abcdefgh" VNone)
      = Ok (enc_decode char_encoding <$> windows, replicate (length windows) VNone)
    ∧ concat (take 3 <$> windows) = abcdefgh
    ∧ (1 = 0 → concat windows = abcdefgh)%Z.
Proof.
  apply (chunker_windows_reassemble (std_service 4 1) (record_of "abcdefgh" VNone)
           "abcdefgh" VNone char_encoding abcdefgh);
    [simpl; lia | vm_compute; reflexivity | vm_compute; reflexivity
    | reflexivity | reflexivity].
Defined.

Lemma chunker_output_aligned_witness :
  length [VStr "notes"; VStr "notes"] = length ["abcd"; "d"]
  ∧ ∀ m, m ∈ [VStr "notes"; VStr "notes"] →
      record_of "abcd" (VStr "notes") !! "metadata" = Some m.
Proof.
  apply (chunker_output_aligned (std_service 4 1) (record_of "abcd" (VStr "notes"))).
  vm_compute. reflexivity.
Defined.


Lemma chunker_overlap_above_chunk_size_witness :
  get_chunks_and_metadatas (std_service 4 9) (record_of "ab" VNone)
  = Ok ([enc_decode char_encoding (take 4 [97; 98] ++ replicate (4 - 2) 98)%Z], [VNone]).
Proof.
  apply (chunker_overlap_above_chunk_size (std_service 4 9) (record_of "ab" VNone)
           "ab" VNone char_encoding [97; 98]%Z 98%Z);
    [simpl; lia | simpl; lia | vm_compute; reflexivity | vm_compute; reflexivity
    | reflexivity | reflexivity | reflexivity].
Defined.

Example chunker_overlap_above_chunk_size_run :
  get_chunks_and_metadatas (std_service 4 9) (record_of "ab" VNone)
  = Ok (["abbb"], [VNone]).
Proof. vm_compute. reflexivity. Qed.

Lemma add_documents_null_rejected_witness :
  (add_documents_batched (X:=std_env) 2 (std_service 4 1) [Some "a"; None]
     (Some [VNone; VNone]) None (mem_world std_env [])).1 = Raise AssertionError
  ∧ calls (add_documents_batched (X:=std_env) 2 (std_service 4 1) [Some "a"; None]
             (Some [VNone; VNone]) None (mem_world std_env [])).2 = []
  ∧ db (add_documents_batched (X:=std_env) 2 (std_service 4 1) [Some "a"; None]
          (Some [VNone; VNone]) None (mem_world std_env [])).2 = [].
Proof.
  apply (add_documents_null_rejected (X:=std_env) 2 (std_service 4 1) [Some "a"; None]
           (Some [VNone; VNone]) None (mem_world std_env [])).
  reflexivity.
Defined.

Lemma add_documents_no_rollback_witness :
  (add_documents_batched (X:=pairs_env) 2 (test_service pairs_env () () () 4 1)
     [Some "a"; Some "b"; Some "c"] (Some [VNone; VNone; VNone])
     (Some ["i1"; "i2"; "i3"]) (mem_world pairs_env [])).1
  = Raise (ExternalError "backend failure")
  ∧ db (add_documents_batched (X:=pairs_env) 2 (test_service pairs_env () () () 4 1)
          [Some "a"; Some "b"; Some "c"] (Some [VNone; VNone; VNone])
          (Some ["i1"; "i2"; "i3"]) (mem_world pairs_env [])).2
    = [("i1", Some "a", VNone); ("i2", Some "b", VNone)]
  ∧ calls (add_documents_batched (X:=pairs_env) 2 (test_service pairs_env () () () 4 1)
             [Some "a"; Some "b"; Some "c"] (Some [VNone; VNone; VNone])
             (Some ["i1"; "i2"; "i3"]) (mem_world pairs_env [])).2
    = [] ++ (CallAdd <$> [nth_batch 2 [Some "a"; Some "b"; Some "c"]
                            [VNone; VNone; VNone] ["i1"; "i2"; "i3"] 0])
         ++ [CallAdd (nth_batch 2 [Some "a"; Some "b"; Some "c"]
                        [VNone; VNone; VNone] ["i1"; "i2"; "i3"] 1)].
Proof.
  apply (add_documents_no_rollback (X:=pairs_env) 2 (test_service pairs_env () () () 4 1)
           [Some "a"; Some "b"; Some "c"] (Some [VNone; VNone; VNone])
           (Some ["i1"; "i2"; "i3"]) (mem_world pairs_env [])
           [nth_batch 2 [Some "a"; Some "b"; Some "c"] [VNone; VNone; VNone]
              ["i1"; "i2"; "i3"] 0]
           (nth_batch 2 [Some "a"; Some "b"; Some "c"] [VNone; VNone; VNone]
              ["i1"; "i2"; "i3"] 1)
           [] [("i1", Some "a", VNone); ("i2", Some "b", VNone)]
           [("i1", Some "a", VNone); ("i2", Some "b", VNone)]
           (ExternalError "backend failure"));
    [lia | reflexivity | reflexivity | reflexivity | reflexivity].
Defined.

Lemma add_documents_single_call_witness :
  calls (add_documents (X:=std_env) (std_service 4 1) [Some "a"; Some "b"]
           (Some [VNone; VNone]) (Some ["i1"; "i2"]) (mem_world std_env [])).2
  = [] ++ [CallAdd {| b_documents := [Some "a"; Some "b"];
                      b_metadatas := [VNone; VNone]; b_ids := ["i1"; "i2"] |}]
  ∧ db (add_documents (X:=std_env) (std_service 4 1) [Some "a"; Some "b"]
          (Some [VNone; VNone]) (Some ["i1"; "i2"]) (mem_world std_env [])).2
    = (collection_add std_env (collection (std_service 4 1))
         {| b_documents := [Some "a"; Some "b"];
            b_metadatas := [VNone; VNone]; b_ids := ["i1"; "i2"] |} []).2
  ∧ (add_documents (X:=std_env) (std_service 4 1) [Some "a"; Some "b"]
       (Some [VNone; VNone]) (Some ["i1"; "i2"]) (mem_world std_env [])).1
    = match (collection_add std_env (collection (std_service 4 1))
               {| b_documents := [Some "a"; Some "b"];
                  b_metadatas := [VNone; VNone]; b_ids := ["i1"; "i2"] |} []).1 with
      | Ok _ => Ok ["i1"; "i2"]
      | Raise e => Raise e
      end.
Proof.
  apply (add_documents_single_call (X:=std_env) (std_service 4 1) [Some "a"; Some "b"]
           [VNone; VNone] ["i1"; "i2"] (mem_world std_env []));
    [unfold _BATCH_SIZE; simpl; lia | reflexivity | reflexivity | reflexivity].
Defined.

Lemma add_documents_concat_witness :
  add_documents_batched (X:=std_env) 2 (std_service 4 1)
    ([Some "a"; Some "b"] ++ [Some "c"]) (Some ([VNone; VNone] ++ [VNone]))
    (Some (["i1"; "i2"] ++ ["i3"])) (mem_world std_env [])
  = (add_documents_batched 2 (std_service 4 1) [Some "a"; Some "b"]
       (Some [VNone; VNone]) (Some ["i1"; "i2"]) ;;;
     ids2 <- add_documents_batched 2 (std_service 4 1) [Some "c"]
               (Some [VNone]) (Some ["i3"]) ;;
     ret (["i1"; "i2"] ++ ids2)) (mem_world std_env []).
Proof.
  apply (add_documents_concat (X:=std_env) 2 (std_service 4 1) 1);
    [lia | reflexivity | reflexivity | reflexivity | reflexivity | reflexivity].
Defined.

Lemma initialize_db_load_failure_witness :
  initialize_db (files_service ["no_document.json"; "missing.json"])
    (mem_world files_env [])
  = (Raise (ExternalError "No such file or directory"), mem_world files_env []).
Proof.
  apply (initialize_db_load_failure (X:=files_env)
           (files_service ["no_document.json"; "missing.json"]) (mem_world files_env [])
           ["no_document.json"] "missing.json" []
           (ExternalError "No such file or directory")).
  - reflexivity.
  - constructor; [|constructor]. eexists. vm_compute. reflexivity.
  - vm_compute. reflexivity.
Defined.

Example initialize_db_two_files :
  let files : gmap string (gmap string value) :=
    {[ "a.json" := record_of "abcd" (VStr "a"); "b.json" := record_of "xy" (VStr "b") ]} in
  let env := mem_env known_encodings accept_all files in
  let svc := Build_ChromaDBService env (test_config 4 1 "cl100k_base" ["a.json"; "b.json"])
               () () () in
  db (initialize_db svc (mem_world env [])).2
  = [("uuid-A", Some "abcd", VStr "a"); ("uuid-B", Some "d", VStr "a");
     ("uuid-C", Some "xy", VStr "b")].
Proof. vm_compute. reflexivity. Qed.

Lemma add_search_results_chunk_failure_witness :
  add_search_results typo_service [sr_item None; sr_item (Some "x")]
    (mem_world std_env [])
  = (Raise (ValueError "Unknown encoding"), mem_world std_env []).
Proof.
  apply (add_search_results_chunk_failure (X:=std_env) typo_service
           [sr_item None; sr_item (Some "x")] (mem_world std_env [])
           [] (sr_item (Some "x")) [] (ValueError "Unknown encoding")).
  - reflexivity.
  - constructor.
  - vm_compute. reflexivity.
Defined.

Lemma add_search_results_empty_pages_witness :
  add_search_results (std_service 4 1) [sr_item (Some EmptyString); sr_item None]
    (mem_world std_env [])
  = (Ok [], mem_world std_env []).
Proof.
  apply (add_search_results_empty_pages (X:=std_env) (std_service 4 1)
           [sr_item (Some EmptyString); sr_item None] (mem_world std_env [])
           char_encoding).
  - simpl. lia.
  - reflexivity.
  - repeat constructor; intros c [= <-]; reflexivity.
  - constructor. reflexivity.
Defined.

Lemma init_wipes_before_attach_witness :
  (__init__ (X:=locked_env) (test_config 4 1 "cl100k_base" []) true
     (mem_world locked_env [("i1", Some "a", VNone)])).1
  = Raise (ExternalError "database is locked")
  ∧ db (__init__ (X:=locked_env) (test_config 4 1 "cl100k_base" []) true
          (mem_world locked_env [("i1", Some "a", VNone)])).2 = [].
Proof.
  apply (init_wipes_before_attach (X:=locked_env) (test_config 4 1 "cl100k_base" [])
           (mem_world locked_env [("i1", Some "a", VNone)]) () [] []
           (ExternalError "database is locked") []);
    reflexivity.
Defined.

Lemma controller_start_aborts_on_bad_record_witness :
  (∃ err, (Controller_init (X:=files_env) (H:=unit) (λ _, Ok ())
             (test_config 4 1 "cl100k_base" ["no_document.json"])
             (mem_world files_env [("old", Some "chunk", VNone)])).1 = Raise err)
  ∧ (Controller_init (X:=files_env) (H:=unit) (λ _, Ok ())
       (test_config 4 1 "cl100k_base" ["no_document.json"])
       (mem_world files_env [("old", Some "chunk", VNone)])).2
    = mem_world files_env [].
Proof.
  apply (controller_start_aborts_on_bad_record (X:=files_env) (H:=unit) (λ _, Ok ())
           (test_config 4 1 "cl100k_base" ["no_document.json"])
           (mem_world files_env [("old", Some "chunk", VNone)])
           (files_service ["no_document.json"]) (mem_world files_env [])
           [] {[ "metadata" := VStr "notes.txt" ]} [] (KeyError "document")).
  - reflexivity.
  - vm_compute. reflexivity.
  - constructor.
  - vm_compute. reflexivity.
Defined.

(** ** The prompt handler *)

Section PromptHandlerFacts.
Context {P : PromptFiles}.
Implicit Types (self : PromptHandler P) (d : Disk P).

(** [read] never changes the disk.  Once it has returned a document, every
    later [read] returns that same document without looking at the disk:
    whatever the file holds by then, also after [write] has replaced it.
    A read that raised, or that found an empty document, caches
    nothing. *)
Theorem prompt_read_caches self d :
  (PromptHandler_read self d).2 = d
  ∧ match (PromptHandler_read self d).1.1 with
    | Ok (Some p) =>
        (∀ d2, PromptHandler_read (PromptHandler_read self d).1.2 d2
               = (Ok (Some p), (PromptHandler_read self d).1.2, d2))
        ∧ (∀ q fmt d2,
             PromptHandler_read (PromptHandler_read self d).1.2
               (PromptHandler_write (PromptHandler_read self d).1.2 q fmt d2).2
             = (Ok (Some p), (PromptHandler_read self d).1.2,
                (PromptHandler_write (PromptHandler_read self d).1.2 q fmt d2).2))
    | _ => (PromptHandler_read self d).1.2 = self
    end.
Proof.
  assert (∀ s p, as_dict s = Some p →
            ∀ d2, PromptHandler_read s d2 = (Ok (Some p), s, d2)) as Hcached.
  { intros s p Hs d2. unfold PromptHandler_read. by rewrite Hs. }
  destruct (PromptHandler_read self d) as [[r self1] d1] eqn:E. cbn [fst snd].
  unfold PromptHandler_read in E.
  destruct (as_dict self) as [p|] eqn:Ecache.
  - injection E as <- <- <-. split; [done|]. split; intros; by apply Hcached.
  - destruct (open_read P (prompt_file self) d) as [content|e];
      [|by injection E as <- <- <-].
    destruct (yaml_safe_load P content) as [[p|]|e]; injection E as <- <- <-.
    + split; [done|]. split; intros; by apply Hcached.
    + split; [done|]. destruct self; simpl in *. by rewrite Ecache.
    + done.
Qed.

(** [write] with a format other than ["json"] and ["yml"] raises
    [ValueError] and does not open the file. *)
Theorem prompt_write_rejects_format self q fmt d :
  fmt ≠ "json" → fmt ≠ "yml" →
  PromptHandler_write self q fmt d
  = (Raise (ValueError "Format must be either 'yml' or 'json'"), d).
Proof.
  intros Hj Hy. unfold PromptHandler_write.
  destruct (String.eqb_spec fmt "json"); [done|].
  by destruct (String.eqb_spec fmt "yml").
Qed.
End PromptHandlerFacts.

(** ** The configurator *)

Section ConfigureFacts.
Context {C : ConfigDir}.
Implicit Types (self : ConfiguratorObject) (d : ConfigDisk C).

(** After a [configure] that returned, a later [configure] without
    override changes nothing and cannot fail, whatever the configuration
    files hold by then. *)
Theorem configure_once self override_configuration d self1 :
  configure self override_configuration d = (Ok (), self1) →
  ∀ d2, configure self1 false d2 = (Ok (), self1).
Proof.
  intros Hc d2.
  assert (self_configured self1 = true) as Hflag.
  { unfold configure in Hc.
    destruct (override_configuration || negb (self_configured self)) eqn:Hgo.
    - destruct (__load_api_yml self d) as [a|]; [|done].
      destruct (__load_agents_yml _ d) as [m|]; [|done].
      destruct (__load_data_yml _ d) as [dc|]; [|done].
      by injection Hc as <-.
    - injection Hc as <-. apply orb_false_elim in Hgo as [_ Hgo].
      by apply negb_false_iff in Hgo. }
  unfold configure. by rewrite Hflag.
Qed.

(** The files are loaded in the order api, agents, data, and each
    attribute is assigned as soon as its file is loaded.  A missing
    [api.yml] raises the exception that names it and leaves the object as
    it was.  When [api.yml] loads and [agents.yml] is missing, the
    exception names [agents.yml] and the object keeps the new API
    configuration next to its old agents, data and [configured] flag. *)
Theorem configure_missing_file self override_configuration d :
  override_configuration || negb (self_configured self) = true →
  (file_exists C (self_config_dir self +:+ "/api.yml") d = false →
     configure self override_configuration d
     = (Raise (Exception_ ("Cound not find " +:+ (self_config_dir self +:+ "/api.yml")
                           +:+ " in config directory")), self))
  ∧ (∀ a, file_exists C (self_config_dir self +:+ "/api.yml") d = true →
       read_api_yml C (self_config_dir self +:+ "/api.yml") d = Ok a →
       file_exists C (self_config_dir self +:+ "/agents.yml") d = false →
       configure self override_configuration d
       = (Raise (Exception_ ("Cound not find " +:+ (self_config_dir self +:+ "/agents.yml")
                             +:+ " in config directory")),
          {| self_config_dir := self_config_dir self; self_api_config := a;
             self_agent_config_map := self_agent_config_map self;
             self_data_config := self_data_config self;
             self_configured := self_configured self |})).
Proof.
  intros Hgo. split.
  - intros Hno. unfold configure, __load_api_yml, assert_present.
    by rewrite Hgo, Hno.
  - intros a Hex Hread Hno.
    unfold configure, __load_api_yml, __load_agents_yml, assert_present.
    rewrite Hgo, Hex. cbn [rbind]. rewrite Hread. simpl. by rewrite Hno.
Qed.
End ConfigureFacts.

(** ** The embedding function *)

Lemma insert_by_key_perm {A} (key : A → Z) x (l : list A) :
  insert_by_key key x l ≡ₚ x :: l.
Proof.
  induction l as [|y l IH]; [done|]. simpl.
  destruct (key x <=? key y)%Z; [done|]. rewrite IH. apply Permutation_swap.
Qed.

Lemma sorted_by_key_perm {A} (key : A → Z) (l : list A) : sorted_by_key key l ≡ₚ l.
Proof.
  induction l as [|x l IH]; [done|]. unfold sorted_by_key in *. simpl.
  by rewrite insert_by_key_perm, IH.
Qed.

Lemma insert_by_key_sorted {A} (key : A → Z) x (l : list A) :
  Sorted (λ a b, (key a ≤ key b)%Z) l →
  Sorted (λ a b, (key a ≤ key b)%Z) (insert_by_key key x l).
Proof.
  induction 1 as [|y l Hl IH Hhd]; simpl; [by repeat constructor|].
  destruct (Z.leb_spec (key x) (key y)) as [Hle|Hgt].
  - constructor; [by constructor|]. by constructor.
  - constructor; [done|]. destruct Hhd as [|z l Hyz]; simpl.
    + constructor. lia.
    + destruct (key x <=? key z)%Z; constructor; [lia|done].
Qed.

Lemma sorted_by_key_sorted {A} (key : A → Z) (l : list A) :
  Sorted (λ a b, (key a ≤ key b)%Z) (sorted_by_key key l).
Proof.
  induction l as [|x l IH]; [constructor|]. by apply insert_by_key_sorted.
Qed.

Lemma random_choice_alnum rng k :
  ∃ c, random_choice rng k (list_ascii_of_string (ascii_letters +:+ digits)) = Ok c
       ∧ c ∈ list_ascii_of_string (ascii_letters +:+ digits).
Proof.
  unfold random_choice.
  destruct (lookup_lt_is_Some_2 (list_ascii_of_string (ascii_letters +:+ digits))
              (rng k `mod` length (list_ascii_of_string (ascii_letters +:+ digits))))
    as [c Hc].
  { apply Nat.mod_upper_bound. done. }
  exists c. rewrite Hc. split; [done|]. by eapply list_elem_of_lookup_2.
Qed.

Lemma rmapM_total {A B} (f : A → Result B) (P : B → Prop) (l : list A) :
  (∀ x, ∃ y, f x = Ok y ∧ P y) →
  ∃ ys, rmapM f l = Ok ys ∧ length ys = length l ∧ Forall P ys.
Proof.
  intros Hf. induction l as [|x l (ys & Hys & Hlen & HP)].
  - exists []. by repeat split.
  - destruct (Hf x) as (y & Hy & HPy). exists (y :: ys). simpl.
    rewrite Hy, Hys. simpl. repeat split; [by rewrite Hlen|by constructor].
Qed.

(** [generate_random_string] always returns: a string of exactly [length]
    characters (none for a length of zero or less), each an ASCII letter
    or a digit. *)
Theorem generate_random_string_alnum rng k (n : Z) :
  ∃ s, generate_random_string rng k n = Ok s
       ∧ String.length s = Z.to_nat n
       ∧ ∀ c, c ∈ list_ascii_of_string s →
           c ∈ list_ascii_of_string (ascii_letters +:+ digits).
Proof.
  unfold generate_random_string.
  destruct (rmapM_total
              (λ i, random_choice rng (k + i)
                      (list_ascii_of_string (ascii_letters +:+ digits)))
              (λ c, c ∈ list_ascii_of_string (ascii_letters +:+ digits))
              (seq 0 (Z.to_nat n))) as (cs & -> & Hlen & Hall).
  { intros i. apply random_choice_alnum. }
  exists (string_of_list_ascii cs). cbn [rbind]. split; [done|].
  rewrite list_ascii_of_string_of_list_ascii. split.
  - rewrite length_seq in Hlen. rewrite <- Hlen.
    clear. induction cs as [|c cs IH]; [done|]. simpl. by rewrite IH.
  - intros c Hc. rewrite Forall_forall in Hall. by apply Hall.
Qed.

Section EmbeddingCall.
Context {E : Type}.
Implicit Types self : OpenAIEmbedding E.

(** Without a deployment id the texts go out in one request, newlines
    replaced by spaces.  When the response numbers its [n] items
    [0 .. n-1], in whatever order it lists them, the function returns [n]
    embeddings with the embedding of item [j] at position [j]. *)
Theorem embedding_call_orders_by_index self texts response n :
  deployment_id self = None →
  _client_create self (_model_name self) (ManyTexts (replace_newlines <$> texts))
    = Ok response →
  e_index <$> response ≡ₚ Z.of_nat <$> seq 0 n →
  ∃ out, OpenAIEmbedding_call self texts = inl out
         ∧ length out = n
         ∧ ∀ item, item ∈ response →
             out !! Z.to_nat (e_index item) = Some (e_embedding item).
Proof.
  intros Hdep Hresp Hperm. unfold OpenAIEmbedding_call. rewrite Hdep, Hresp.
  set (sorted := sorted_by_key e_index response).
  assert (e_index <$> sorted = Z.of_nat <$> seq 0 n) as Hkeys.
  { apply (Sorted_unique Z.le).
    - apply (Sorted_fmap e_index (λ a b, (e_index a ≤ e_index b)%Z) Z.le); [done|].
      apply sorted_by_key_sorted.
    - apply (Sorted_fmap Z.of_nat lt Z.le); [intros ???; lia|].
      clear. generalize 0. induction n as [|n IH]; intros s; simpl; [constructor|].
      constructor; [apply IH|]. destruct n; simpl; constructor. lia.
    - unfold sorted. by rewrite (sorted_by_key_perm e_index response). }
  eexists. split; [done|]. split.
  - rewrite length_fmap, <- (length_fmap e_index), Hkeys.
    by rewrite length_fmap, length_seq.
  - intros item Hin.
    assert (item ∈ sorted) as Hs
      by (unfold sorted; by rewrite (sorted_by_key_perm e_index response)).
    apply list_elem_of_lookup in Hs as [j Hj].
    assert ((e_index <$> sorted) !! j = Some (e_index item)) as Hk
      by (by rewrite list_lookup_fmap, Hj).
    rewrite Hkeys, list_lookup_fmap in Hk.
    destruct (seq 0 n !! j) as [j'|] eqn:Ej; [|done].
    apply lookup_seq in Ej as [-> _]. injection Hk as <-.
    rewrite Nat2Z.id, list_lookup_fmap. simpl. by rewrite Hj.
Qed.

(** With a deployment id a call of the embedding function never returns.
    For a non-empty list of texts the first text already stops the
    method: with the client's exception, with the empty-data error, or,
    when the client answers with data, with the [AttributeError] for
    [enbedding]; the wrapper hands that exception on.  For an empty list
    the method has no embeddings to return, and the wrapper refuses
    that. *)
Theorem embedding_call_deployment_branch self dep :
  deployment_id self = Some dep →
  (∀ texts, ∃ err, EmbeddingFunction_call self texts = inr err)
  ∧ (∃ msg, EmbeddingFunction_call self [] = inr (InvalidEmbeddings msg))
  ∧ (∀ t ts, ∃ err, OpenAIEmbedding_call self (t :: ts) = inr err
                    ∧ EmbeddingFunction_call self (t :: ts) = inr err)
  ∧ (∀ t ts first rest,
       _client_create self (_model_name self) (OneText (replace_newlines t))
         = Ok (first :: rest) →
       OpenAIEmbedding_call self (t :: ts) = inr (AttributeError "enbedding")
       ∧ EmbeddingFunction_call self (t :: ts) = inr (AttributeError "enbedding")).
Proof.
  intros Hdep.
  assert (∀ t ts, ∃ err, OpenAIEmbedding_call self (t :: ts) = inr err) as Hne.
  { intros t ts. unfold OpenAIEmbedding_call. rewrite Hdep, fmap_cons. cbn [embed_each].
    destruct (_client_create self _ _) as [[|first rest]|e]; eexists; reflexivity. }
  assert (EmbeddingFunction_call self []
          = inr (InvalidEmbeddings
                   "Expected embeddings to be a list with at least one item")) as Hnil.
  { unfold EmbeddingFunction_call, OpenAIEmbedding_call. by rewrite Hdep. }
  split; [|split; [|split]].
  - intros [|t ts]; [by eexists|].
    destruct (Hne t ts) as [err Herr]. exists err.
    unfold EmbeddingFunction_call. by rewrite Herr.
  - by eexists.
  - intros t ts. destruct (Hne t ts) as [err Herr]. exists err.
    unfold EmbeddingFunction_call. by rewrite Herr.
  - intros t ts first rest Hc.
    assert (OpenAIEmbedding_call self (t :: ts) = inr (AttributeError "enbedding")) as Hat.
    { unfold OpenAIEmbedding_call. rewrite Hdep, fmap_cons. cbn [embed_each].
      by rewrite Hc. }
    unfold EmbeddingFunction_call. by rewrite Hat.
Qed.
End EmbeddingCall.

(** ** The chat relay *)

Lemma display_from_user history i u prefix :
  display_from history i ({| role := "user"; content := u |} :: prefix)
  = match history !! (i + 1) with
    | Some next =>
        rest <-? display_from history (i + 1) prefix ;; Ok ((u, content next) :: rest)
    | None => Raise (IndexError "list index out of range")
    end.
Proof. reflexivity. Qed.

Lemma display_from_assistant history i a prefix :
  display_from history i ({| role := "assistant"; content := a |} :: prefix)
  = display_from history (i + 1) prefix.
Proof. reflexivity. Qed.

Lemma display_from_rounds pre rounds u a :
  display_from
    (pre ++ rounds_history rounds
         ++ [{| role := "user"; content := u |}; {| role := "assistant"; content := a |}])
    (length pre)
    (rounds_history rounds ++ [{| role := "user"; content := u |}])
  = Ok (rounds ++ [(u, a)]).
Proof.
  revert pre. induction rounds as [|[u1 a1] rounds IH]; intros pre.
  - cbn [rounds_history fmap list_fmap concat app]. rewrite display_from_user.
    rewrite lookup_app_r by lia.
    replace (length pre + 1 - length pre) with 1 by lia. done.
  - unfold rounds_history in *. rewrite fmap_cons. cbn [concat app fst snd].
    rewrite display_from_user, lookup_app_r by lia.
    replace (length pre + 1 - length pre) with 1 by lia. cbn [lookup list_lookup].
    rewrite display_from_assistant.
    specialize (IH (pre ++ [{| role := "user"; content := u1 |};
                            {| role := "assistant"; content := a1 |}])).
    rewrite <- app_assoc, length_app in IH. cbn [app length] in IH.
    replace (length pre + 1 + 1) with (length pre + 2) by lia.
    rewrite IH. done.
Qed.

(** The history stays a sequence of completed rounds and the display is
    that sequence.  Starting from a history of [k] rounds,
    [chat_with_backend] never raises: it sends the history with the new
    user message to the backend, appends the reply (the backend's
    [response], ["[No response]"] without one, ["[Error] ..."] when the
    request raised), and returns the [k + 1] rounds as display and as
    history. *)
Theorem chat_with_backend_rounds post user_input rounds :
  let sent := rounds_history rounds ++ [{| role := "user"; content := user_input |}] in
  let reply := match post sent with
               | Ok (Some r) => r
               | Ok None => "[No response]"
               | Raise e => "[Error] " +:+ str_of_error e
               end in
  chat_with_backend post user_input (rounds_history rounds)
  = Ok (rounds ++ [(user_input, reply)],
        rounds_history (rounds ++ [(user_input, reply)])).
Proof.
  intros sent reply. unfold chat_with_backend. fold sent. fold reply.
  assert (rounds_history (rounds ++ [(user_input, reply)])
          = rounds_history rounds
            ++ [{| role := "user"; content := user_input |};
                {| role := "assistant"; content := reply |}]) as Hh.
  { unfold rounds_history. rewrite fmap_app, concat_app. simpl. done. }
  assert (sent ++ [{| role := "assistant"; content := reply |}]
          = rounds_history (rounds ++ [(user_input, reply)])) as ->.
  { rewrite Hh. unfold sent. by rewrite <- app_assoc. }
  rewrite Hh at 1 2.
  rewrite removelast_app by done. cbn [removelast].
  pose proof (display_from_rounds [] rounds user_input reply) as Hd.
  cbn [app length] in Hd. rewrite Hd. done.
Qed.

Lemma prompt_write_rejects_format_witness :
  PromptHandler_write (P:=mem_prompts) (PromptHandler_init "coach.yml") "text" "toml" ∅
  = (Raise (ValueError "Format must be either 'yml' or 'json'"), ∅).
Proof.
  apply (prompt_write_rejects_format (P:=mem_prompts) (PromptHandler_init "coach.yml")
           "text" "toml" ∅); discriminate.
Defined.

(** A read, a write of something else, a second read: the second read
    still gives the first document. *)
Example prompt_stale_after_write :
  let d0 : gmap string string := {[ "prompts/coach.yml" := "old" ]} in
  let h1 := (PromptHandler_read (P:=mem_prompts) (PromptHandler_init "coach.yml") d0).1.2 in
  let d1 := (PromptHandler_write h1 "new" "yml" d0).2 in
  d1 !! "prompts/coach.yml" = Some "new"
  ∧ (PromptHandler_read h1 d1).1.1 = Ok (Some "old").
Proof. vm_compute. split; reflexivity. Qed.

Lemma configure_once_witness :
  configure (C:=mem_config_dir) configured_object false [] = (Ok (), configured_object).
Proof.
  apply (configure_once (C:=mem_config_dir) unconfigured false
           ["config/api.yml"; "config/agents.yml"; "config/data.yml"] configured_object).
  vm_compute. reflexivity.
Defined.

Lemma configure_missing_file_witness :
  (file_exists mem_config_dir ("config" +:+ "/api.yml") ["config/api.yml"] = false →
     configure (C:=mem_config_dir) unconfigured false ["config/api.yml"]
     = (Raise (Exception_ ("Cound not find " +:+ ("config" +:+ "/api.yml")
                           +:+ " in config directory")), unconfigured))
  ∧ (∀ a, file_exists mem_config_dir ("config" +:+ "/api.yml") ["config/api.yml"] = true →
       read_api_yml mem_config_dir ("config" +:+ "/api.yml") ["config/api.yml"] = Ok a →
       file_exists mem_config_dir ("config" +:+ "/agents.yml") ["config/api.yml"] = false →
       configure (C:=mem_config_dir) unconfigured false ["config/api.yml"]
       = (Raise (Exception_ ("Cound not find " +:+ ("config" +:+ "/agents.yml")
                             +:+ " in config directory")),
          {| self_config_dir := "config"; self_api_config := a;
             self_agent_config_map := ∅;
             self_data_config := data_config (test_config 0 0 EmptyString []);
             self_configured := false |})).
Proof.
  apply (configure_missing_file (C:=mem_config_dir) unconfigured false ["config/api.yml"]).
  reflexivity.
Defined.

Example configure_half_update :
  configure (C:=mem_config_dir) unconfigured false ["config/api.yml"]
  = (Raise (Exception_ "Cound not find config/agents.yml in config directory"),
     {| self_config_dir := "config";
        self_api_config := {| openai_key := Some "sk-from-file" |};
        self_agent_config_map := ∅;
        self_data_config := data_config (test_config 0 0 EmptyString []);
        self_configured := false |}).
Proof. vm_compute. reflexivity. Qed.

Lemma embedding_call_orders_by_index_witness :
  ∃ out, OpenAIEmbedding_call plain_embedding ["a"; "b"] = inl out
         ∧ length out = 2
         ∧ ∀ item, item ∈ [{| e_index := 1; e_embedding := "second" |};
                           {| e_index := 0; e_embedding := "first" |}] →
             out !! Z.to_nat (e_index item) = Some (e_embedding item).
Proof.
  apply (embedding_call_orders_by_index plain_embedding ["a"; "b"]
           [{| e_index := 1; e_embedding := "second" |};
            {| e_index := 0; e_embedding := "first" |}] 2).
  - reflexivity.
  - reflexivity.
  - simpl. apply Permutation_swap.
Defined.

Example embedding_call_reordered :
  OpenAIEmbedding_call plain_embedding ["a"; "b"] = inl ["first"; "second"].
Proof. reflexivity. Qed.

Lemma embedding_call_deployment_branch_witness :
  (∀ texts, ∃ err, EmbeddingFunction_call deployed_embedding texts = inr err)
  ∧ (∃ msg, EmbeddingFunction_call deployed_embedding [] = inr (InvalidEmbeddings msg))
  ∧ (∀ t ts, ∃ err, OpenAIEmbedding_call deployed_embedding (t :: ts) = inr err
                    ∧ EmbeddingFunction_call deployed_embedding (t :: ts) = inr err)
  ∧ (∀ t ts first rest,
       _client_create deployed_embedding (_model_name deployed_embedding)
         (OneText (replace_newlines t)) = Ok (first :: rest) →
       OpenAIEmbedding_call deployed_embedding (t :: ts)
       = inr (AttributeError "enbedding")
       ∧ EmbeddingFunction_call deployed_embedding (t :: ts)
         = inr (AttributeError "enbedding")).
Proof.
  apply (embedding_call_deployment_branch deployed_embedding "my-deployment").
  reflexivity.
Defined.

Example embedding_call_deployed :
  EmbeddingFunction_call deployed_embedding ["a"; "b"] = inr (AttributeError "enbedding")
  ∧ EmbeddingFunction_call plain_embedding ["a"; "b"] = inl ["first"; "second"].
Proof. split; reflexivity. Qed.

Example chat_two_rounds :
  chat_with_backend (λ _, Raise (ExternalError "connection refused")) "and now?"
    (rounds_history [("hello", "hi")])
  = Ok ([("hello", "hi"); ("and now?", "[Error] connection refused")],
        [{| role := "user"; content := "hello" |};
         {| role := "assistant"; content := "hi" |};
         {| role := "user"; content := "and now?" |};
         {| role := "assistant"; content := "[Error] connection refused" |}]).
Proof. reflexivity. Qed.

(** ** From the search tool to the store *)

Section SearchToStore.
Context {X : External} (W : Web).
Implicit Types (self : ChromaDBService X) (w : World X).

Lemma filter_fetched (pages : list (string * string)) :
  List.filter (λ sr, is_not_None (sr_content sr))
    ((λ p, search_result_item (extract_webpage_info W p.1 p.2)) <$> pages)
  = (λ p, search_result_item (extract_webpage_info W p.1 p.2))
      <$> List.filter (λ p, is_Ok (fetch_soup W p.2)) pages.
Proof.
  induction pages as [|[term url] pages IH]; [done|].
  rewrite fmap_cons. cbn [List.filter fst snd]. rewrite IH.
  unfold extract_webpage_info at 1. by destruct (fetch_soup W url).
Qed.

(** A page that could not be downloaded never reaches the store.  For the
    items built from any list of (query, url) pairs, [add_search_results]
    does exactly what it does for the pages that were fetched; when no
    page was fetched it raises [AssertionError] and the store is not
    touched.  Every item carries the query and url it was asked for. *)
Theorem failed_pages_not_ingested self (pages : list (string * string)) w :
  let item := λ p : string * string,
                search_result_item (extract_webpage_info W p.1 p.2) in
  add_search_results self (item <$> pages) w
  = add_search_results self
      (item <$> List.filter (λ p, is_Ok (fetch_soup W p.2)) pages) w
  ∧ (Forall (λ p, is_Ok (fetch_soup W p.2) = false) pages →
     add_search_results self (item <$> pages) w = (Raise AssertionError, w))
  ∧ (∀ p, sr_query (item p) = p.1 ∧ sr_url (item p) = p.2).
Proof.
  intros item. split; [|split].
  - unfold add_search_results. rewrite !filter_fetched.
    fold item. by rewrite filter_filter.
  - intros Hall. unfold add_search_results. rewrite filter_fetched.
    assert (List.filter (λ p, is_Ok (fetch_soup W p.2)) pages = []) as ->; [|done].
    induction Hall as [|p pages Hp _ IH]; [done|]. simpl. by rewrite Hp.
  - intros [term url]. unfold item, extract_webpage_info. simpl.
    by destruct (fetch_soup W url).
Qed.
End SearchToStore.

Example failed_page_dropped :
  let r := add_search_results (X:=std_env) (std_service 4 1)
             ((λ p, search_result_item (extract_webpage_info one_page_web p.1 p.2))
                <$> [("q", "https://down.example"); ("q", "https://ok.example")])
             (mem_world std_env []) in
  db r.2 = [("uuid-A", Some "x",
             VDict {[ "title" := EmptyString; "url" := "https://ok.example" ]})].
Proof. vm_compute. reflexivity. Qed.
